(** * ImpactModel: a linear "impact per dollar" model with standardized inputs

    Shallow embedding of [cpp/include/impact_model.h],
    [cpp/src/impact_model.cpp] and the driver [cpp/src/main.cpp]:

    - the class [ImpactModel] is a record of its six private members;
    - [double] is Rocq's primitive binary64 float, so every arithmetic
      operation rounds as IEEE-754 double precision does;
    - [int n_features_] is a [Z] and the conversions between [size_t] and
      [int] that the source performs implicitly are written out
      (LP64: 32-bit [int], 64-bit [size_t]);
    - [loadModel] mutates the members in place inside a [try] block, so it
      is written in a state-and-exception monad in which the state survives
      a throw;
    - [operator[]] on [std::vector] is unchecked; reads and writes return
      [option], [None] standing for an access out of range;
    - [main] is a function of the file system it runs in to its exit status
      and the prediction it prints. *)

From Stdlib Require Import ZArith Floats Lia.
From stdpp Require Import base option list strings.

#[local] Set Warnings "-inexact-float,-register-all".
#[local] Open Scope Z_scope.

(** ** Machine integers *)

Module Int.

Definition int_modulus : Z := 2 ^ 32.
Definition INT_MAX : Z := 2 ^ 31 - 1.
Definition INT_MIN : Z := - 2 ^ 31.
Definition size_modulus : Z := 2 ^ 64.

(** The value range of [int]. *)
Definition in_range (n : Z) : Prop := INT_MIN <= n <= INT_MAX.

(** [int n = s;] for a [size_t] [s]: reduction modulo 2^32 into the signed
    range. *)
Definition of_size_t (s : Z) : Z :=
  let r := s mod int_modulus in
  if r <=? INT_MAX then r else r - int_modulus.

(** [static_cast<size_t>(n)], and the usual arithmetic conversion applied
    to an [int] compared with a [size_t]: reduction modulo 2^64. *)
Definition to_size_t (n : Z) : Z := n mod size_modulus.

End Int.

(** ** std::vector<double> *)

(** [double] *)
Abbreviation double := float.

(** [v.size()] *)
Definition vsize {A} (v : list A) : Z := Z.of_nat (length v).

(** [v[i]] read: unchecked in the source, [None] out of range. *)
Definition vget {A} (v : list A) (i : nat) : option A := v !! i.

(** [v[i] = x]: unchecked in the source, [None] out of range. *)
Definition vset {A} (v : list A) (i : nat) (x : A) : option (list A) :=
  if decide (i < length v)%nat then Some (<[i := x]> v) else None.

(** [v.push_back(x)] *)
Definition push_back {A} (v : list A) (x : A) : list A := v ++ [x].

(** ** The JSON document (nlohmann::json)

    Only the part of the library's interface that [loadModel] calls.
    [JNumber d] stands for any JSON number, [d] being the value
    [get<double>()] returns for it. An object is its list of members, looked
    up by key. *)

Inductive json : Type :=
| JNull
| JBool (b : bool)
| JNumber (d : double)
| JString (s : string)
| JArray (elems : list json)
| JObject (members : list (string * json)).

Fixpoint find_member (members : list (string * json)) (key : string) : option json :=
  match members with
  | [] => None
  | (k, v) :: rest => if String.eqb k key then Some v else find_member rest key
  end.

(** [j.contains(key)]: false for anything but an object. *)
Definition contains (j : json) (key : string) : bool :=
  match j with
  | JObject members => bool_decide (is_Some (find_member members key))
  | _ => false
  end.

(** [j[key]], used by the source only under [j.contains(key)], where it is
    the member's value. *)
Definition subscript (j : json) (key : string) : json :=
  match j with
  | JObject members => default JNull (find_member members key)
  | _ => JNull
  end.

(** [v.is_array()] *)
Definition is_array (v : json) : bool :=
  match v with JArray _ => true | _ => false end.

(** The elements a range-for visits; the source iterates arrays only. *)
Definition items (v : json) : list json :=
  match v with JArray elems => elems | _ => [] end.

(** [v.get<double>()]: [None] when the library throws [type_error], which it
    does for every value that is not a number. *)
Definition get_double (v : json) : option double :=
  match v with JNumber d => Some d | _ => None end.

(** ** The file system seen by [std::ifstream] and [file >> j] *)

Inductive file_contents : Type :=
| NotJson              (* [file >> j] throws [parse_error] *)
| Json (j : json).     (* [file >> j] yields [j] *)

(** [None]: the file cannot be opened. *)
Definition filesystem : Type := string → option file_contents.

(** ** The class *)

Record ImpactModel : Type := mkImpactModel {
  loaded_ : bool;
  n_features_ : Z;
  coefficients_ : list double;
  intercept_ : double;
  scaler_mean_ : list double;
  scaler_scale_ : list double
}.

(** [ImpactModel::ImpactModel()] *)
Definition ImpactModel_new : ImpactModel :=
  {| loaded_ := false; n_features_ := 0; coefficients_ := [];
     intercept_ := 0%float; scaler_mean_ := []; scaler_scale_ := [] |}.

Definition getNumFeatures (m : ImpactModel) : Z := n_features_ m.
Definition isLoaded (m : ImpactModel) : bool := loaded_ m.

(** Member assignments. *)
Definition set_loaded (b : bool) (m : ImpactModel) : ImpactModel :=
  {| loaded_ := b; n_features_ := n_features_ m;
     coefficients_ := coefficients_ m; intercept_ := intercept_ m;
     scaler_mean_ := scaler_mean_ m; scaler_scale_ := scaler_scale_ m |}.
Definition set_n_features (n : Z) (m : ImpactModel) : ImpactModel :=
  {| loaded_ := loaded_ m; n_features_ := n;
     coefficients_ := coefficients_ m; intercept_ := intercept_ m;
     scaler_mean_ := scaler_mean_ m; scaler_scale_ := scaler_scale_ m |}.
Definition set_coefficients (v : list double) (m : ImpactModel) : ImpactModel :=
  {| loaded_ := loaded_ m; n_features_ := n_features_ m;
     coefficients_ := v; intercept_ := intercept_ m;
     scaler_mean_ := scaler_mean_ m; scaler_scale_ := scaler_scale_ m |}.
Definition set_intercept (d : double) (m : ImpactModel) : ImpactModel :=
  {| loaded_ := loaded_ m; n_features_ := n_features_ m;
     coefficients_ := coefficients_ m; intercept_ := d;
     scaler_mean_ := scaler_mean_ m; scaler_scale_ := scaler_scale_ m |}.
Definition set_scaler_mean (v : list double) (m : ImpactModel) : ImpactModel :=
  {| loaded_ := loaded_ m; n_features_ := n_features_ m;
     coefficients_ := coefficients_ m; intercept_ := intercept_ m;
     scaler_mean_ := v; scaler_scale_ := scaler_scale_ m |}.
Definition set_scaler_scale (v : list double) (m : ImpactModel) : ImpactModel :=
  {| loaded_ := loaded_ m; n_features_ := n_features_ m;
     coefficients_ := coefficients_ m; intercept_ := intercept_ m;
     scaler_mean_ := scaler_mean_ m; scaler_scale_ := v |}.

(** ** Member functions that mutate and may throw

    A computation takes the object, and either returns a value or throws;
    in both cases it hands back the object as it has left it. *)

Module Method.

Inductive outcome (A : Type) : Type :=
| Returned (a : A)
| Thrown.
Arguments Returned {A} a.
Arguments Thrown {A}.

Definition t (A : Type) : Type := ImpactModel → outcome A * ImpactModel.

Definition ret {A} (a : A) : t A := λ m, (Returned a, m).
Definition throw {A} : t A := λ m, (Thrown, m).
Definition bind {A B} (c : t A) (k : A → t B) : t B :=
  λ m, match c m with
       | (Returned a, m') => k a m'
       | (Thrown, m') => (Thrown, m')
       end.
Definition get : t ImpactModel := λ m, (Returned m, m).
Definition modify (f : ImpactModel → ImpactModel) : t unit :=
  λ m, (Returned tt, f m).
(** A library call that throws when it has no result. *)
Definition try_get {A} (o : option A) : t A :=
  match o with Some a => ret a | None => throw end.
Definition when (b : bool) (c : t unit) : t unit :=
  if b then c else ret tt.

(** [try { body } catch (const std::exception&) { return handler; }] *)
Definition try_catch {A} (body : t A) (handler : A) (m : ImpactModel)
  : A * ImpactModel :=
  match body m with
  | (Returned a, m') => (a, m')
  | (Thrown, m') => (handler, m')
  end.

End Method.

Declare Scope method_scope.
Delimit Scope method_scope with method.
Notation "'let*' x ':=' c 'in' k" := (Method.bind c (λ x, k))
  (at level 10, x binder, c at level 100, k at level 200) : method_scope.
Notation "c ';;' k" := (Method.bind c (λ _, k))
  (at level 100, k at level 200, right associativity) : method_scope.

(** [triple P c Q E]: from an object satisfying [P], [c] either returns
    [a] leaving an object that satisfies [Q a], or throws leaving an object
    that satisfies [E]. *)
Definition triple {A} (P : ImpactModel → Prop) (c : Method.t A)
    (Q : A → ImpactModel → Prop) (E : ImpactModel → Prop) : Prop :=
  ∀ m, P m →
    match c m with
    | (Method.Returned a, m') => Q a m'
    | (Method.Thrown, m') => E m'
    end.

(** A property of the object that every step of [c] keeps. *)
Definition invariant {A} (I : ImpactModel → Prop) (c : Method.t A) : Prop :=
  triple I c (λ _, I) I.

(** ** ImpactModel::loadModel *)

(** [for (const auto& val : arr) field.push_back(val.get<double>());] *)
Fixpoint push_all (push : double → ImpactModel → ImpactModel)
    (elems : list json) : Method.t unit :=
  match elems with
  | [] => Method.ret tt
  | val :: rest =>
      (let* d := Method.try_get (get_double val) in
       Method.modify (push d) ;;
       push_all push rest)%method
  end.

Definition push_coefficient (d : double) (m : ImpactModel) : ImpactModel :=
  set_coefficients (push_back (coefficients_ m) d) m.
Definition push_scaler_mean (d : double) (m : ImpactModel) : ImpactModel :=
  set_scaler_mean (push_back (scaler_mean_ m) d) m.
Definition push_scaler_scale (d : double) (m : ImpactModel) : ImpactModel :=
  set_scaler_scale (push_back (scaler_scale_ m) d) m.

(** The validation condition of the source, with the conversions of
    [n_features_] to [size_t] in the two comparisons with [size()]. *)
Definition invalid_dimensions (m : ImpactModel) : bool :=
  (n_features_ m =? 0)
  || negb (vsize (scaler_mean_ m) =? Int.to_size_t (n_features_ m))
  || negb (vsize (scaler_scale_ m) =? Int.to_size_t (n_features_ m)).

(** Lines 28-54: the four keys, each read only if present. *)
Definition load_fields (j : json) : Method.t unit :=
  ((* Load coefficients *)
   Method.when (contains j "coef" && is_array (subscript j "coef"))
     (Method.modify (set_coefficients []) ;;
      push_all push_coefficient (items (subscript j "coef"))) ;;
   (* Load intercept *)
   Method.when (contains j "intercept")
     (let* d := Method.try_get (get_double (subscript j "intercept")) in
      Method.modify (set_intercept d)) ;;
   (* Load scaler parameters *)
   Method.when (contains j "scaler_mean" && is_array (subscript j "scaler_mean"))
     (Method.modify (set_scaler_mean []) ;;
      push_all push_scaler_mean (items (subscript j "scaler_mean"))) ;;
   Method.when (contains j "scaler_scale" && is_array (subscript j "scaler_scale"))
     (Method.modify (set_scaler_scale []) ;;
      push_all push_scaler_scale (items (subscript j "scaler_scale"))))%method.

(** Lines 56-67: the feature count, the validation and the flag. *)
Definition validate_and_commit : Method.t bool :=
  ((* Set number of features *)
   Method.modify (λ m, set_n_features (Int.of_size_t (vsize (coefficients_ m))) m) ;;
   (* Validate *)
   let* m := Method.get in
   if invalid_dimensions m then Method.ret false
   else
     Method.modify (set_loaded true) ;;
     Method.ret true)%method.

(** The statements of the [try] block after the file has been opened
    (lines 25-67). *)
Definition load_from (contents : file_contents) : Method.t bool :=
  (let* j := Method.try_get (match contents with
                             | Json j => Some j
                             | NotJson => None
                             end) in
   load_fields j ;;
   validate_and_commit)%method.

Definition loadModel (fs : filesystem) (weights_path : string)
    (m : ImpactModel) : bool * ImpactModel :=
  Method.try_catch
    (match fs weights_path with
     | None => Method.ret false
     | Some contents => load_from contents
     end)
    false m.

(** ** ImpactModel::normalize and ImpactModel::predict *)

(** The guard constant of [normalize]. *)
Definition scale_epsilon : double := 1e-6%float.

(** One iteration of the loop of [normalize], at index [i]. *)
Definition normalize_step (m : ImpactModel) (features : list double)
    (i : nat) (normalized : list double) : option (list double) :=
  scale ← vget (scaler_scale_ m) i;
  if (scale_epsilon <? scale)%float then
    x ← vget features i;
    mean ← vget (scaler_mean_ m) i;
    scale' ← vget (scaler_scale_ m) i;
    vset normalized i ((x - mean) / scale')%float
  else
    vset normalized i 0%float.

(** [for (size_t i = start; i < start + count; ++i) body], threading the
    data the body updates. *)
Fixpoint for_loop {S : Type} (body : nat → S → option S)
    (count : nat) (i : nat) (s : S) : option S :=
  match count with
  | O => Some s
  | Datatypes.S count' => s' ← body i s; for_loop body count' (Datatypes.S i) s'
  end.

Definition normalize (m : ImpactModel) (features : list double)
    : option (list double) :=
  let n := Z.to_nat (Int.to_size_t (n_features_ m)) in
  for_loop (normalize_step m features) n 0%nat (replicate n 0%float).

(** One iteration of the accumulation loop of [predict]. *)
Definition predict_step (m : ImpactModel) (normalized : list double)
    (i : nat) (prediction : double) : option double :=
  c ← vget (coefficients_ m) i;
  x ← vget normalized i;
  Some (prediction + c * x)%float.

Definition predict (m : ImpactModel) (features : list double)
    : option double :=
  if negb (loaded_ m) then Some 0%float
  else if negb (vsize features =? Int.to_size_t (n_features_ m)) then Some 0%float
  else
    normalized ← normalize m features;
    for_loop (predict_step m normalized) (length normalized) 0%nat (intercept_ m).

(** [v] has as many elements as the array under [key] of [j], when [j] has
    an array there. *)
Definition sized_as_array (j : json) (key : string) (v : list double) : Prop :=
  ∀ elems, contains j key = true → subscript j key = JArray elems →
           length v = length elems.

(** ** Sequences of calls on one object

    The public interface as a labelled transition system. A [predict] whose
    indexing leaves a vector has undefined behaviour in C++: it has no
    transition, and an execution cannot be continued past it. *)

Inductive call : Type :=
| CallLoadModel (fs : filesystem) (weights_path : string)
| CallPredict (features : list double).

Inductive value : Type :=
| VBool (b : bool)
| VDouble (d : double).

Definition call_step (m : ImpactModel) (c : call) : option (value * ImpactModel) :=
  match c with
  | CallLoadModel fs weights_path =>
      let '(b, m') := loadModel fs weights_path m in Some (VBool b, m')
  | CallPredict features =>
      d ← predict m features; Some (VDouble d, m)
  end.

Inductive exec : ImpactModel → list (call * value) → ImpactModel → Prop :=
| exec_done m : exec m [] m
| exec_call m c v m' tr m'' :
    call_step m c = Some (v, m') →
    exec m' tr m'' →
    exec m ((c, v) :: tr) m''.

(** ** The prediction formula as the specification words it

    [normalized[i]] and [intercept + Σ_{i=0}^{N-1} coefficients[i] *
    normalized[i]], summed in index order. Indexing is total here, with
    [0.0] outside a sequence. *)

Module Formula.

Definition nth_or_zero (v : list double) (i : nat) : double :=
  default 0%float (v !! i).

Definition normalized (scaler_mean scaler_scale features : list double)
    (i : nat) : double :=
  if (1e-6 <? nth_or_zero scaler_scale i)%float
  then ((nth_or_zero features i - nth_or_zero scaler_mean i)
        / nth_or_zero scaler_scale i)%float
  else 0%float.

Definition result (N : nat) (coefficients : list double) (intercept : double)
    (scaler_mean scaler_scale features : list double) : double :=
  foldl
    (λ acc i,
       (acc + nth_or_zero coefficients i
              * normalized scaler_mean scaler_scale features i)%float)
    intercept (seq 0 N).

End Formula.

(** ** Artifact files used in the examples *)

(** The document
    [{"coef": [...], "intercept": b, "scaler_mean": [...], "scaler_scale": [...]}]. *)
Definition artifact_document (coef : list double) (intercept : double)
    (scaler_mean scaler_scale : list double) : json :=
  JObject [ ("coef", JArray (JNumber <$> coef));
            ("intercept", JNumber intercept);
            ("scaler_mean", JArray (JNumber <$> scaler_mean));
            ("scaler_scale", JArray (JNumber <$> scaler_scale)) ]%string.

(** A file system holding one readable file. *)
Definition single_file (path : string) (contents : file_contents) : filesystem :=
  λ p, if String.eqb p path then Some contents else None.

(** [{"coef": [2.0], "intercept": 1.0, "scaler_mean": [0.0], "scaler_scale": [1.0]}] *)
Definition known_artifact : json :=
  artifact_document [2%float] 1%float [0%float] [1%float].

(** [{"coef": [1.0]}] *)
Definition coef_only_1 : json :=
  JObject [ ("coef", JArray [JNumber 1%float]) ]%string.

(** [{"coef": [1.0, 2.0]}] *)
Definition coef_only_2 : json :=
  JObject [ ("coef", JArray [JNumber 1%float; JNumber 2%float]) ]%string.

(** 2^32 + 1 coefficients, one mean, one scale. *)
Definition oversized_count : nat := Z.to_nat 4294967297.
Definition oversized_artifact : json :=
  artifact_document (replicate oversized_count 0%float) 0%float
    [0%float] [1%float].

(** A loaded three-feature model whose second feature has no spread. *)
Definition three_features : ImpactModel :=
  {| loaded_ := true; n_features_ := 3;
     coefficients_ := [1%float; 2%float; 3%float];
     intercept_ := 0.5%float;
     scaler_mean_ := [0%float; 1%float; 2%float];
     scaler_scale_ := [2%float; 0%float; 4%float] |}.

(** A loaded two-feature model whose vectors hold more than two entries. *)
Definition padded_model : ImpactModel :=
  {| loaded_ := true; n_features_ := 2;
     coefficients_ := [1%float; 2%float; 3%float];
     intercept_ := 1%float;
     scaler_mean_ := [0%float; 1%float; 2%float; 3%float];
     scaler_scale_ := [2%float; 4%float; 8%float] |}.

(** The object a failed reload of [{"coef": [1.0, 2.0]}] leaves behind a
    loaded one-feature model. *)
Definition stale_model : ImpactModel :=
  {| loaded_ := true; n_features_ := 2;
     coefficients_ := [1%float; 2%float];
     intercept_ := 1%float;
     scaler_mean_ := [0%float];
     scaler_scale_ := [1%float] |}.

(** [{"coef": [1.0, "x", 3.0]}] *)
Definition coef_with_string : json :=
  JObject [ ("coef", JArray [JNumber 1%float; JString "x"; JNumber 3%float]) ]%string.

(** [{"intercept": 4.0, "note": "no arrays"}] *)
Definition intercept_only : json :=
  JObject [ ("intercept", JNumber 4%float); ("note", JString "no arrays") ]%string.

(** ** The members a document decodes to *)

(** [v] holds the numbers of the array under [key] of [j], when [j] has an
    array there. *)
Definition decoded_as_array (j : json) (key : string) (v : list double) : Prop :=
  ∀ elems, contains j key = true → subscript j key = JArray elems →
           elems = JNumber <$> v.

(** ** main (cpp/src/main.cpp)

    The process is run in a file system and ends with an exit status; what
    is recorded of its output is the [double] it streams to [std::cout]
    after "Predicted impact per dollar: ", when it gets there. [None] for
    the whole run is a [predict] that indexes out of range. *)

Definition model_path : string := "../../data/models/impact_model.bin".

Definition example_features : list double :=
  [ 0.5;     (* heat_score *)
    0.3;     (* air_quality_score *)
    0.2;     (* tree_density *)
    0.4;     (* cooling_site_distance_norm *)
    1000.0;  (* total_fuel_oil_gallons *)
    0.6;     (* ej_score *)
    0.3;     (* pollution_proxy *)
    0.5;     (* building_density *)
    0.1;     (* parks_coverage *)
    0.2;     (* flood_risk *)
    500.0;   (* population_density *)
    0.0      (* planting_history *)
  ]%float.

Inductive main_outcome : Type :=
| Exited (status : Z) (printed : option double).

Definition main (fs : filesystem) : option main_outcome :=
  let model := ImpactModel_new in
  let '(ok, model) := loadModel fs model_path model in
  if negb ok then Some (Exited 1 None)
  else
    impact ← predict model example_features;
    Some (Exited 0 (Some impact)).


(** [{"coef": [...], "intercept": b}] and
    [{"scaler_mean": [...], "scaler_scale": [...]}]: an artifact split over
    two files. *)
Definition coef_document (coef : list double) (intercept : double) : json :=
  JObject [ ("coef", JArray (JNumber <$> coef));
            ("intercept", JNumber intercept) ]%string.
Definition scaler_document (scaler_mean scaler_scale : list double) : json :=
  JObject [ ("scaler_mean", JArray (JNumber <$> scaler_mean));
            ("scaler_scale", JArray (JNumber <$> scaler_scale)) ]%string.

(** Two readable files. *)
Definition two_files (path1 : string) (contents1 : file_contents)
    (path2 : string) (contents2 : file_contents) : filesystem :=
  λ p, if String.eqb p path1 then Some contents1
       else if String.eqb p path2 then Some contents2
       else None.


(** [{"coef": [1.0, 2.0], "intercept": 0.0, "scaler_mean": [0.0],
      "scaler_scale": [1.0, 1.0]}] *)
Definition mismatched_artifact : json :=
  artifact_document [1%float; 2%float] 0%float [0%float] [1%float; 1%float].

(** * Properties *)

(** ** Conversions between [size_t] and [int] *)

Lemma to_size_t_small n : 0 ≤ n < Int.size_modulus → Int.to_size_t n = n.
Proof. intros Hn. unfold Int.to_size_t. by apply Z.mod_small. Qed.

Lemma of_size_t_small s : 0 ≤ s ≤ Int.INT_MAX → Int.of_size_t s = s.
Proof.
  intros Hs. unfold Int.of_size_t, Int.int_modulus, Int.INT_MAX in *.
  rewrite Z.mod_small by lia.
  destruct (Z.leb_spec s (2 ^ 31 - 1)); [done | lia].
Qed.

Lemma of_size_t_in_range s : Int.in_range (Int.of_size_t s).
Proof.
  unfold Int.in_range, Int.of_size_t, Int.int_modulus, Int.INT_MAX, Int.INT_MIN.
  pose proof (Z.mod_pos_bound s (2 ^ 32) ltac:(lia)) as Hr.
  destruct (Z.leb_spec (s mod 2 ^ 32) (2 ^ 31 - 1)); lia.
Qed.

Lemma vsize_nonneg {A} (v : list A) : 0 ≤ vsize v.
Proof. unfold vsize. lia. Qed.

Lemma vsize_length_eq {A B} (v : list A) (w : list B) :
  vsize v = vsize w ↔ length v = length w.
Proof. unfold vsize. lia. Qed.

(** ** Comparisons of doubles *)

Lemma SFcompare_swap x y :
  SFcompare y x = CompOpp <$> SFcompare x y.
Proof.
  destruct x as [sx|sx| |sx mx ex], y as [sy|sy| |sy my ey];
    try done; try (by destruct sx); try (by destruct sy);
    try (by destruct sx, sy).
  destruct sx, sy; simpl; try done; f_equal;
    rewrite (Z.compare_antisym ey ex);
    destruct (ey ?= ex)%Z; simpl; try done;
    rewrite ?Pos.compare_cont_antisym; simpl;
    by rewrite ?CompOpp_involutive.
Qed.

(** [x <= y] excludes [x > y]; both are false on NaN. *)
Lemma leb_not_gt (x y : double) :
  (x <=? y)%float = true → (y <? x)%float = false.
Proof.
  rewrite leb_spec, ltb_spec. unfold SFleb, SFltb.
  rewrite (SFcompare_swap (Prim2SF x) (Prim2SF y)).
  by destruct (SFcompare (Prim2SF x) (Prim2SF y)) as [[]|].
Qed.

(** ** The loops of [normalize] and [predict] *)

Section Loops.

Context (m : ImpactModel) (features : list double).

Let F : nat → double :=
  Formula.normalized (scaler_mean_ m) (scaler_scale_ m) features.

Lemma vset_in_range {A} (v : list A) i x :
  (i < length v)%nat → vset v i x = Some (<[i := x]> v).
Proof. intros Hi. unfold vset. by rewrite decide_True. Qed.

Lemma vget_nth_or_zero (v : list double) i :
  (i < length v)%nat → vget v i = Some (Formula.nth_or_zero v i).
Proof.
  intros Hi. unfold vget, Formula.nth_or_zero.
  destruct (lookup_lt_is_Some_2 v i Hi) as [x Hx]. by rewrite Hx.
Qed.

(** In range, one iteration of [normalize] stores the specified value. *)
Lemma normalize_step_in_range i (normalized : list double) :
  (i < length (scaler_scale_ m))%nat →
  (i < length (scaler_mean_ m))%nat →
  (i < length features)%nat →
  (i < length normalized)%nat →
  normalize_step m features i normalized = Some (<[i := F i]> normalized).
Proof.
  intros Hscale Hmean Hfeat Hnorm. unfold normalize_step.
  rewrite !(vget_nth_or_zero (scaler_scale_ m)) by done. simpl.
  subst F. unfold Formula.normalized, scale_epsilon.
  destruct (1e-6 <? Formula.nth_or_zero (scaler_scale_ m) i)%float.
  - rewrite (vget_nth_or_zero features), (vget_nth_or_zero (scaler_mean_ m)) by done.
    simpl. by apply vset_in_range.
  - by apply vset_in_range.
Qed.

(** Where the guard fails the feature is not read at all. *)
Lemma normalize_step_guarded i (normalized : list double) scale :
  scaler_scale_ m !! i = Some scale →
  (scale_epsilon <? scale)%float = false →
  normalize_step m features i normalized = vset normalized i 0%float.
Proof.
  intros Hscale Hguard. unfold normalize_step, vget.
  rewrite Hscale. simpl. by rewrite Hguard.
Qed.

Lemma normalize_loop_lookup count : ∀ i (normalized : list double),
  (i + count ≤ length (scaler_scale_ m))%nat →
  (i + count ≤ length (scaler_mean_ m))%nat →
  (i + count ≤ length features)%nat →
  (i + count ≤ length normalized)%nat →
  ∃ normalized',
    for_loop (normalize_step m features) count i normalized = Some normalized'
    ∧ length normalized' = length normalized
    ∧ (∀ j, (i ≤ j < i + count)%nat → normalized' !! j = Some (F j))
    ∧ (∀ j, (j < i ∨ i + count ≤ j)%nat → normalized' !! j = normalized !! j).
Proof.
  induction count as [|count IH]; intros i normalized Hscale Hmean Hfeat Hnorm.
  - exists normalized. split_and!; try done. intros j Hj. lia.
  - simpl. rewrite normalize_step_in_range by lia. simpl.
    destruct (IH (S i) (<[i := F i]> normalized)) as (res & Hrun & Hlen & Hin & Hout);
      rewrite ?length_insert; try lia.
    exists res. rewrite Hrun, Hlen, length_insert. split_and!; try done.
    + intros j Hj. destruct (decide (j = i)) as [->|Hne].
      * rewrite Hout by lia. apply list_lookup_insert_eq. lia.
      * apply Hin. lia.
    + intros j Hj. rewrite Hout by lia. apply list_lookup_insert_ne. lia.
Qed.

(** With vectors of the expected size, [normalize] returns the specified
    values for the indices [0 .. n-1]. *)
Lemma normalize_consistent :
  vsize features = Int.to_size_t (n_features_ m) →
  vsize (scaler_mean_ m) = Int.to_size_t (n_features_ m) →
  vsize (scaler_scale_ m) = Int.to_size_t (n_features_ m) →
  normalize m features = Some (F <$> seq 0 (length features)).
Proof.
  intros Hfeat Hmean Hscale. unfold normalize.
  rewrite <- Hfeat. unfold vsize in *. rewrite Nat2Z.id.
  destruct (normalize_loop_lookup (length features) 0
              (replicate (length features) 0%float))
    as (res & -> & Hlen & Hin & _);
    rewrite ?length_replicate; try lia.
  f_equal. rewrite length_replicate in Hlen.
  apply list_eq. intros j. rewrite list_lookup_fmap.
  destruct (decide (j < length features)%nat) as [Hj|Hj].
  - rewrite Hin by lia. by rewrite lookup_seq_lt.
  - rewrite lookup_ge_None_2 by lia. by rewrite lookup_seq_ge by lia.
Qed.

Lemma predict_step_in_range (normalized : list double) i prediction :
  (i < length (coefficients_ m))%nat →
  (i < length normalized)%nat →
  predict_step m normalized i prediction
  = Some (prediction + Formula.nth_or_zero (coefficients_ m) i
                       * Formula.nth_or_zero normalized i)%float.
Proof.
  intros Hcoef Hnorm. unfold predict_step.
  by rewrite !vget_nth_or_zero by done.
Qed.

(** The accumulation loop of [predict] is the left-to-right sum. *)
Lemma predict_loop_foldl (normalized : list double) count : ∀ i prediction,
  (i + count ≤ length (coefficients_ m))%nat →
  (i + count ≤ length normalized)%nat →
  for_loop (predict_step m normalized) count i prediction
  = Some (foldl
            (λ acc j, (acc + Formula.nth_or_zero (coefficients_ m) j
                             * Formula.nth_or_zero normalized j)%float)
            prediction (seq i count)).
Proof.
  induction count as [|count IH]; intros i prediction Hcoef Hnorm; [done|].
  cbn [for_loop seq foldl].
  rewrite predict_step_in_range by lia. cbn [mbind option_bind].
  apply IH; lia.
Qed.

End Loops.

(** ** predict *)

Lemma foldl_ext_seq {A} (f g : A → nat → A) start count : ∀ a,
  (∀ acc j, (start ≤ j < start + count)%nat → f acc j = g acc j) →
  foldl f a (seq start count) = foldl g a (seq start count).
Proof.
  revert start. induction count as [|count IH]; intros start a Hfg; [done|].
  simpl. rewrite Hfg by lia. apply IH. intros acc j Hj. apply Hfg. lia.
Qed.

(** Past its two guards, [predict] runs the accumulation loop over the
    specified normalized values. *)
Lemma predict_consistent (m : ImpactModel) (features : list double) :
  loaded_ m = true →
  vsize (scaler_mean_ m) = Int.to_size_t (n_features_ m) →
  vsize (scaler_scale_ m) = Int.to_size_t (n_features_ m) →
  vsize features = Int.to_size_t (n_features_ m) →
  predict m features
  = for_loop
      (predict_step m
         (Formula.normalized (scaler_mean_ m) (scaler_scale_ m) features
            <$> seq 0 (length features)))
      (length features) 0%nat (intercept_ m).
Proof.
  intros Hloaded Hmean Hscale Hfeat. unfold predict.
  rewrite Hloaded, Hfeat, Z.eqb_refl. cbn [negb].
  rewrite normalize_consistent by done. cbn [mbind option_bind].
  by rewrite length_fmap, length_seq.
Qed.

(** C3: on an artifact that is not loaded, or with a feature vector whose
    size differs from [n_features_] (compared as the source compares them,
    after conversion to [size_t]), [predict] returns exactly [0.0]. The
    result is [Some 0.0] for every content of the numeric members, also
    where the loops would index out of range: they are not run. *)
Theorem predict_precondition_failure (m : ImpactModel) (features : list double) :
  loaded_ m = false ∨ vsize features ≠ Int.to_size_t (n_features_ m) →
  predict m features = Some 0%float.
Proof.
  intros [Hunloaded | Hsize]; unfold predict.
  - by rewrite Hunloaded.
  - destruct (loaded_ m); [|done]. cbn [negb].
    by destruct (Z.eqb_spec (vsize features) (Int.to_size_t (n_features_ m))).
Qed.

Lemma predict_precondition_failure_witness :
  predict ImpactModel_new [1%float] = Some 0%float
  ∧ predict three_features [1%float; 2%float] = Some 0%float.
Proof.
  split.
  - apply predict_precondition_failure. left. reflexivity.
  - apply predict_precondition_failure. right. vm_compute. discriminate.
Defined.

(** C4: on a loaded artifact whose three vectors have size N, and for a
    feature vector of size N, [predict] returns
    [intercept + Σ_{i<N} coefficients[i] * normalized[i]], the sum taken in
    index order in binary64 arithmetic, with [normalized[i]] guarded by
    [scaler_scale[i] > 1e-6]. *)
Theorem predict_affine_combination (m : ImpactModel) (features : list double) :
  loaded_ m = true →
  vsize (coefficients_ m) = Int.to_size_t (n_features_ m) →
  vsize (scaler_mean_ m) = Int.to_size_t (n_features_ m) →
  vsize (scaler_scale_ m) = Int.to_size_t (n_features_ m) →
  vsize features = Int.to_size_t (n_features_ m) →
  predict m features
  = Some (Formula.result (Z.to_nat (Int.to_size_t (n_features_ m)))
            (coefficients_ m) (intercept_ m)
            (scaler_mean_ m) (scaler_scale_ m) features).
Proof.
  intros Hloaded Hcoef Hmean Hscale Hfeat.
  rewrite predict_consistent by done.
  assert (Hn : Z.to_nat (Int.to_size_t (n_features_ m)) = length features).
  { rewrite <- Hfeat. unfold vsize. lia. }
  assert (Hlen : length (coefficients_ m) = length features).
  { apply vsize_length_eq. congruence. }
  rewrite predict_loop_foldl by (rewrite ?length_fmap, ?length_seq; lia).
  f_equal. unfold Formula.result. rewrite Hn.
  apply foldl_ext_seq. intros acc j Hj. do 2 f_equal.
  unfold Formula.nth_or_zero at 1.
  by rewrite list_lookup_fmap, lookup_seq_lt by lia.
Qed.

Lemma predict_affine_combination_witness :
  predict three_features [4%float; 5%float; 6%float]
  = Some (Formula.result 3 [1%float; 2%float; 3%float] 0.5%float
            [0%float; 1%float; 2%float] [2%float; 0%float; 4%float]
            [4%float; 5%float; 6%float]).
Proof.
  apply (predict_affine_combination three_features
           [4%float; 5%float; 6%float]); reflexivity.
Defined.

(** C6: on a loaded artifact with vectors of size N, if
    [scaler_scale[i] <= 1e-6] then two feature vectors of size N that agree
    everywhere but at index [i] are normalized to the same vector, which
    holds [0.0] at index [i], and get the same prediction. *)
Theorem predict_ignores_zero_spread_feature (m : ImpactModel)
    (features1 features2 : list double) (i : nat) (scale : double) :
  loaded_ m = true →
  vsize (coefficients_ m) = Int.to_size_t (n_features_ m) →
  vsize (scaler_mean_ m) = Int.to_size_t (n_features_ m) →
  vsize (scaler_scale_ m) = Int.to_size_t (n_features_ m) →
  vsize features1 = Int.to_size_t (n_features_ m) →
  vsize features2 = Int.to_size_t (n_features_ m) →
  scaler_scale_ m !! i = Some scale →
  (scale <=? 1e-6)%float = true →
  (∀ j, j ≠ i → features1 !! j = features2 !! j) →
  ∃ normalized r,
    normalize m features1 = Some normalized
    ∧ normalize m features2 = Some normalized
    ∧ normalized !! i = Some 0%float
    ∧ predict m features1 = Some r
    ∧ predict m features2 = Some r.
Proof.
  intros Hloaded Hcoef Hmean Hscale Hfeat1 Hfeat2 Hi Hguard Hagree.
  assert (Hlen : length features1 = length features2).
  { apply vsize_length_eq. congruence. }
  assert (Hlenc : length (coefficients_ m) = length features2).
  { apply vsize_length_eq. congruence. }
  assert (Hlens : length (scaler_scale_ m) = length features2).
  { apply vsize_length_eq. congruence. }
  assert (Hs : Formula.nth_or_zero (scaler_scale_ m) i = scale).
  { unfold Formula.nth_or_zero. by rewrite Hi. }
  assert (Hsame :
    Formula.normalized (scaler_mean_ m) (scaler_scale_ m) features1
      <$> seq 0 (length features1)
    = Formula.normalized (scaler_mean_ m) (scaler_scale_ m) features2
      <$> seq 0 (length features2)).
  { rewrite Hlen. apply list_fmap_ext. intros k j _.
    unfold Formula.normalized. destruct (decide (j = i)) as [->|Hne].
    - by rewrite Hs, (leb_not_gt _ _ Hguard).
    - assert (Hf : Formula.nth_or_zero features1 j
                   = Formula.nth_or_zero features2 j).
      { unfold Formula.nth_or_zero. by rewrite (Hagree j Hne). }
      by rewrite Hf. }
  rewrite !predict_consistent, !normalize_consistent by done.
  rewrite Hsame, Hlen.
  rewrite predict_loop_foldl by (rewrite ?length_fmap, ?length_seq; lia).
  do 2 eexists. split_and!; try done.
  apply lookup_lt_Some in Hi as Hlt.
  rewrite list_lookup_fmap, lookup_seq_lt by lia.
  cbn [fmap option_fmap option_map Nat.add].
  unfold Formula.normalized. by rewrite Hs, (leb_not_gt _ _ Hguard).
Qed.

Lemma predict_ignores_zero_spread_feature_witness :
  ∃ normalized r,
    normalize three_features [4%float; 5%float; 6%float] = Some normalized
    ∧ normalize three_features [4%float; 99%float; 6%float] = Some normalized
    ∧ normalized !! 1%nat = Some 0%float
    ∧ predict three_features [4%float; 5%float; 6%float] = Some r
    ∧ predict three_features [4%float; 99%float; 6%float] = Some r.
Proof.
  apply (predict_ignores_zero_spread_feature three_features
           [4%float; 5%float; 6%float] [4%float; 99%float; 6%float]
           1%nat 0%float); try reflexivity.
  intros [|[|j]] Hj; [reflexivity | congruence | reflexivity].
Defined.

(** C9: on a loaded artifact whose three vectors have size [n_features_],
    and for a feature vector of that size, [normalize] and [predict] run to
    completion: no read or write of a vector element is out of range. *)
Theorem predict_indices_in_bounds (m : ImpactModel) (features : list double) :
  loaded_ m = true →
  vsize features = Int.to_size_t (n_features_ m) →
  vsize (coefficients_ m) = Int.to_size_t (n_features_ m) →
  vsize (scaler_mean_ m) = Int.to_size_t (n_features_ m) →
  vsize (scaler_scale_ m) = Int.to_size_t (n_features_ m) →
  is_Some (normalize m features) ∧ is_Some (predict m features).
Proof.
  intros Hloaded Hfeat Hcoef Hmean Hscale. split.
  - rewrite normalize_consistent by done. eauto.
  - assert (Hlen : length (coefficients_ m) = length features).
    { apply vsize_length_eq. congruence. }
    rewrite predict_consistent by done.
    rewrite predict_loop_foldl by (rewrite ?length_fmap, ?length_seq; lia).
    eauto.
Qed.

Lemma predict_indices_in_bounds_witness :
  is_Some (normalize three_features [4%float; 5%float; 6%float])
  ∧ is_Some (predict three_features [4%float; 5%float; 6%float]).
Proof.
  apply predict_indices_in_bounds; reflexivity.
Defined.

(** ** Reasoning about methods that mutate and may throw *)

Section Hoare.

Lemma triple_ret {A} (a : A) (Q : A → ImpactModel → Prop) E :
  triple (Q a) (Method.ret a) Q E.
Proof. intros m Hm. exact Hm. Qed.

Lemma triple_throw {A} (Q : A → ImpactModel → Prop) (E : ImpactModel → Prop) :
  triple E (@Method.throw A) Q E.
Proof. intros m Hm. exact Hm. Qed.

Lemma triple_bind {A B} P (c : Method.t A) (k : A → Method.t B) R Q E :
  triple P c R E →
  (∀ a, triple (R a) (k a) Q E) →
  triple P (Method.bind c k) Q E.
Proof.
  intros Hc Hk m Hm. unfold Method.bind. specialize (Hc m Hm).
  destruct (c m) as [[a|] m']; [|done]. by apply Hk.
Qed.

Lemma triple_modify (f : ImpactModel → ImpactModel) P Q E :
  (∀ m, P m → Q tt (f m)) →
  triple P (Method.modify f) Q E.
Proof. intros Hf m Hm. by apply Hf. Qed.

Lemma triple_get (Q : ImpactModel → ImpactModel → Prop) E :
  triple (λ m, Q m m) Method.get Q E.
Proof. intros m Hm. exact Hm. Qed.

Lemma triple_try_get {A} (o : option A) P (Q : A → ImpactModel → Prop) E :
  (∀ m, P m → match o with Some a => Q a m | None => E m end) →
  triple P (Method.try_get o) Q E.
Proof. intros Ho m Hm. specialize (Ho m Hm). by destruct o. Qed.

Lemma triple_when (b : bool) (c : Method.t unit) P Q E :
  (b = true → triple P c Q E) →
  (b = false → ∀ m, P m → Q tt m) →
  triple P (Method.when b c) Q E.
Proof.
  intros Hc Hskip. destruct b; simpl.
  - by apply Hc.
  - intros m Hm. by apply Hskip.
Qed.

Lemma triple_weaken {A} (P P' : ImpactModel → Prop) (c : Method.t A)
    (Q Q' : A → ImpactModel → Prop) (E E' : ImpactModel → Prop) :
  triple P' c Q' E' →
  (∀ m, P m → P' m) →
  (∀ a m, Q' a m → Q a m) →
  (∀ m, E' m → E m) →
  triple P c Q E.
Proof.
  intros Hc HP HQ HE m Hm. specialize (Hc m (HP m Hm)).
  destruct (c m) as [[a|] m']; auto.
Qed.

Lemma invariant_push_all (I : ImpactModel → Prop) push elems :
  (∀ d m, I m → I (push d m)) →
  invariant I (push_all push elems).
Proof.
  intros Hpush. induction elems as [|val rest IH]; simpl.
  - intros m Hm. exact Hm.
  - apply triple_bind with (R := λ _, I).
    + apply triple_try_get. intros m Hm. destruct (get_double val); exact Hm.
    + intros d. apply triple_bind with (R := λ _, I).
      * apply triple_modify. intros m Hm. by apply Hpush.
      * intros u. exact IH.
Qed.

(** A loop over numbers only returns, having pushed every one of them. *)
Lemma push_all_numbers push (ds : list double) : ∀ m,
  push_all push (JNumber <$> ds) m
  = (Method.Returned tt, foldl (λ m d, push d m) m ds).
Proof.
  induction ds as [|d ds IH]; intros m; [done|].
  simpl. unfold Method.bind at 1. simpl. unfold Method.bind at 1. simpl.
  apply IH.
Qed.

(** A loop that returns has met numbers only. *)
Lemma push_all_returned push elems : ∀ m m',
  push_all push elems m = (Method.Returned tt, m') →
  ∃ ds, elems = JNumber <$> ds ∧ m' = foldl (λ m d, push d m) m ds.
Proof.
  induction elems as [|val rest IH]; intros m m' Hrun.
  - exists []. simpl in Hrun. unfold Method.ret in Hrun. by inversion Hrun.
  - simpl in Hrun. unfold Method.bind at 1 in Hrun.
    destruct val as [|b|d|s|l|kv]; simpl in Hrun;
      try (unfold Method.throw in Hrun; discriminate).
    unfold Method.bind at 1 in Hrun. simpl in Hrun.
    destruct (IH _ _ Hrun) as (ds & -> & ->). by exists (d :: ds).
Qed.

End Hoare.

Lemma foldl_push_coefficient ds : ∀ m,
  foldl (λ m d, push_coefficient d m) m ds
  = set_coefficients (coefficients_ m ++ ds) m.
Proof.
  induction ds as [|d ds IH]; intros m; simpl.
  - rewrite app_nil_r. by destruct m.
  - rewrite IH. unfold push_coefficient, push_back, set_coefficients. simpl.
    by rewrite <- app_assoc.
Qed.

Lemma foldl_push_scaler_mean ds : ∀ m,
  foldl (λ m d, push_scaler_mean d m) m ds
  = set_scaler_mean (scaler_mean_ m ++ ds) m.
Proof.
  induction ds as [|d ds IH]; intros m; simpl.
  - rewrite app_nil_r. by destruct m.
  - rewrite IH. unfold push_scaler_mean, push_back, set_scaler_mean. simpl.
    by rewrite <- app_assoc.
Qed.

Lemma foldl_push_scaler_scale ds : ∀ m,
  foldl (λ m d, push_scaler_scale d m) m ds
  = set_scaler_scale (scaler_scale_ m ++ ds) m.
Proof.
  induction ds as [|d ds IH]; intros m; simpl.
  - rewrite app_nil_r. by destruct m.
  - rewrite IH. unfold push_scaler_scale, push_back, set_scaler_scale. simpl.
    by rewrite <- app_assoc.
Qed.

(** ** loadModel *)

Lemma invariant_bind {A B} I (c : Method.t A) (k : A → Method.t B) :
  invariant I c → (∀ a, invariant I (k a)) → invariant I (Method.bind c k).
Proof. intros Hc Hk. by apply triple_bind with (R := λ _, I). Qed.

Lemma invariant_modify (I : ImpactModel → Prop) f :
  (∀ m, I m → I (f m)) → invariant I (Method.modify f).
Proof. intros Hf. by apply triple_modify. Qed.

Lemma invariant_try_get {A} (I : ImpactModel → Prop) (o : option A) :
  invariant I (Method.try_get o).
Proof. apply triple_try_get. intros m Hm. by destruct o. Qed.

Lemma invariant_when (I : ImpactModel → Prop) b c :
  invariant I c → invariant I (Method.when b c).
Proof. intros Hc. apply triple_when; [done|]. by intros _ m Hm. Qed.

(** What a call makes of a [triple] of its [try] block. *)
Lemma triple_try_catch {A} P (body : Method.t A) Q E (handler : A) m :
  triple P body Q E →
  (∀ m', E m' → Q handler m') →
  P m →
  Q (fst (Method.try_catch body handler m))
    (snd (Method.try_catch body handler m)).
Proof.
  intros Hbody Hcatch Hm. unfold Method.try_catch.
  specialize (Hbody m Hm). destruct (body m) as [[a|] m']; simpl; auto.
Qed.

(** Reading the keys never touches [loaded_]. *)
Lemma load_fields_keeps_loaded b j :
  invariant (λ m, loaded_ m = b) (load_fields j).
Proof.
  unfold load_fields.
  repeat first
    [ apply invariant_bind; [|intros ?]
    | apply invariant_when
    | apply invariant_try_get
    | apply invariant_push_all; intros ? ? ?; assumption
    | apply invariant_modify; intros ? ?; assumption ].
Qed.

(** [loaded_] is written once, with [true], on the path that returns
    [true]. *)
Lemma validate_and_commit_loaded b :
  triple (λ m, loaded_ m = b) validate_and_commit
    (λ r m', loaded_ m' = b || r) (λ m', loaded_ m' = b).
Proof.
  intros m Hm. unfold validate_and_commit, Method.bind, Method.modify, Method.get.
  destruct (invalid_dimensions _); simpl.
  - by rewrite orb_false_r.
  - by rewrite orb_true_r.
Qed.

Lemma load_from_loaded b contents :
  triple (λ m, loaded_ m = b) (load_from contents)
    (λ r m', loaded_ m' = b || r) (λ m', loaded_ m' = b).
Proof.
  unfold load_from.
  apply triple_bind with (R := λ _ m, loaded_ m = b).
  { apply invariant_try_get. }
  intros j. apply triple_bind with (R := λ _ m, loaded_ m = b).
  { apply load_fields_keeps_loaded. }
  intros _. apply validate_and_commit_loaded.
Qed.

(** A call leaves [loaded_] as it was, or sets it and returns [true]. *)
Lemma loadModel_loaded fs weights_path m :
  loaded_ (snd (loadModel fs weights_path m))
  = loaded_ m || fst (loadModel fs weights_path m).
Proof.
  unfold loadModel.
  apply (triple_try_catch (λ m0, loaded_ m0 = loaded_ m) _
           (λ r m', loaded_ m' = loaded_ m || r) (λ m', loaded_ m' = loaded_ m));
    [| intros m' Hm'; by rewrite orb_false_r | done].
  destruct (fs weights_path) as [contents|].
  - apply load_from_loaded.
  - intros m0 Hm0. simpl. by rewrite orb_false_r.
Qed.

(** What [true] from [loadModel] guarantees about the members. *)
Lemma validate_and_commit_valid :
  triple (λ _, True) validate_and_commit
    (λ r m', r = true →
       loaded_ m' = true
       ∧ n_features_ m' = Int.of_size_t (vsize (coefficients_ m'))
       ∧ invalid_dimensions m' = false)
    (λ _, True).
Proof.
  intros m _. unfold validate_and_commit, Method.bind, Method.modify, Method.get.
  destruct (invalid_dimensions _) eqn:Hvalid; simpl; [done|].
  intros _. split_and!; try done.
Qed.

Lemma loadModel_success fs weights_path m m' :
  loadModel fs weights_path m = (true, m') →
  loaded_ m' = true
  ∧ n_features_ m' = Int.of_size_t (vsize (coefficients_ m'))
  ∧ n_features_ m' ≠ 0
  ∧ vsize (scaler_mean_ m') = Int.to_size_t (n_features_ m')
  ∧ vsize (scaler_scale_ m') = Int.to_size_t (n_features_ m').
Proof.
  intros Hload.
  pose proof (triple_try_catch (λ _, True)
    (match fs weights_path with
     | Some contents => load_from contents
     | None => Method.ret false
     end)
    (λ r m', r = true →
       loaded_ m' = true
       ∧ n_features_ m' = Int.of_size_t (vsize (coefficients_ m'))
       ∧ invalid_dimensions m' = false)
    (λ _, True) false m) as Htc.
  fold (loadModel fs weights_path m) in Htc. rewrite Hload in Htc. simpl in Htc.
  destruct Htc as (Hloaded & Hn & Hvalid); try done.
  - destruct (fs weights_path) as [contents|]; [|by intros m0 _].
    unfold load_from.
    apply triple_bind with (R := λ _ _, True).
    { apply triple_try_get. intros m0 _. by destruct contents. }
    intros j. apply triple_bind with (R := λ _ _, True).
    { intros m0 _. by destruct (load_fields j m0) as [[[]|] ?]. }
    intros _. apply validate_and_commit_valid.
  - split_and!; try done; unfold invalid_dimensions in Hvalid;
      apply orb_false_elim in Hvalid as [Hvalid Hscale];
      apply orb_false_elim in Hvalid as [Hzero Hmean].
    + by apply Z.eqb_neq.
    + apply negb_false_iff in Hmean. by apply Z.eqb_eq.
    + apply negb_false_iff in Hscale. by apply Z.eqb_eq.
Qed.

(** X16 (what holds of C2 on the code): right after a [loadModel] that
    returned [true], and with a coefficient count that fits an [int], the
    three vectors have [n_features_] elements and [n_features_ >= 1]. *)
Lemma loadModel_success_consistent fs weights_path m m' :
  loadModel fs weights_path m = (true, m') →
  vsize (coefficients_ m') ≤ Int.INT_MAX →
  loaded_ m' = true
  ∧ 1 ≤ n_features_ m'
  ∧ vsize (coefficients_ m') = n_features_ m'
  ∧ vsize (scaler_mean_ m') = n_features_ m'
  ∧ vsize (scaler_scale_ m') = n_features_ m'.
Proof.
  intros Hload Hfits.
  destruct (loadModel_success _ _ _ _ Hload) as (Hloaded & Hn & Hne & Hmean & Hscale).
  pose proof (vsize_nonneg (coefficients_ m')) as Hpos.
  rewrite of_size_t_small in Hn by lia.
  rewrite to_size_t_small in Hmean, Hscale
    by (unfold Int.INT_MAX, Int.size_modulus in *; lia).
  split_and!; try done; lia.
Qed.

(** A document that carries the four keys, with arrays of numbers, replaces
    the four numeric members whatever they held. *)
Lemma load_fields_artifact coef intercept scaler_mean scaler_scale m :
  load_fields (artifact_document coef intercept scaler_mean scaler_scale) m
  = (Method.Returned tt,
     {| loaded_ := loaded_ m; n_features_ := n_features_ m;
        coefficients_ := coef; intercept_ := intercept;
        scaler_mean_ := scaler_mean; scaler_scale_ := scaler_scale |}).
Proof.
  unfold load_fields, artifact_document.
  change (contains _ "coef") with true.
  change (contains _ "intercept") with true.
  change (contains _ "scaler_mean") with true.
  change (contains _ "scaler_scale") with true.
  change (subscript _ "coef") with (JArray (JNumber <$> coef)).
  change (subscript _ "intercept") with (JNumber intercept).
  change (subscript _ "scaler_mean") with (JArray (JNumber <$> scaler_mean)).
  change (subscript _ "scaler_scale") with (JArray (JNumber <$> scaler_scale)).
  cbn [is_array items get_double andb Method.when Method.try_get].
  unfold Method.bind, Method.modify, Method.ret.
  rewrite !push_all_numbers.
  rewrite foldl_push_coefficient, foldl_push_scaler_mean, foldl_push_scaler_scale.
  reflexivity.
Qed.

Lemma loadModel_artifact fs weights_path coef intercept scaler_mean scaler_scale m :
  fs weights_path
  = Some (Json (artifact_document coef intercept scaler_mean scaler_scale)) →
  loadModel fs weights_path m
  = let m' := {| loaded_ := loaded_ m;
                 n_features_ := Int.of_size_t (vsize coef);
                 coefficients_ := coef; intercept_ := intercept;
                 scaler_mean_ := scaler_mean; scaler_scale_ := scaler_scale |} in
    if invalid_dimensions m' then (false, m') else (true, set_loaded true m').
Proof.
  intros Hfile. unfold loadModel, Method.try_catch. rewrite Hfile.
  unfold load_from. cbn [Method.try_get].
  unfold Method.bind at 1. cbn [Method.ret].
  unfold Method.bind at 1. rewrite load_fields_artifact.
  unfold validate_and_commit, Method.bind, Method.modify, Method.get.
  cbn [coefficients_ set_n_features].
  by destruct (invalid_dimensions _).
Qed.

(** ** Failed loads *)

Lemma predict_unloaded m features :
  loaded_ m = false → predict m features = Some 0%float.
Proof. intros Hm. unfold predict. by rewrite Hm. Qed.

(** C10: when the file cannot be opened, [loadModel] returns [false] and
    no member changes. *)
Theorem loadModel_unopenable_file (fs : filesystem) (weights_path : string)
    (m : ImpactModel) :
  fs weights_path = None →
  loadModel fs weights_path m = (false, m).
Proof.
  intros Hfile. unfold loadModel, Method.try_catch. by rewrite Hfile.
Qed.

Lemma loadModel_unopenable_file_witness :
  loadModel (single_file "model.json" (Json known_artifact)) "missing.json"
    three_features
  = (false, three_features).
Proof.
  apply loadModel_unopenable_file. reflexivity.
Defined.

(** C1, as the claim states it, fails: a fresh artifact offered the document
    [{"coef": [1.0]}] fails to load, and [getNumFeatures] has changed from 0
    to 1. *)
Lemma failed_load_changes_feature_count :
  let r := loadModel (single_file "model.json" (Json coef_only_1))
             "model.json" ImpactModel_new in
  fst r = false
  ∧ getNumFeatures ImpactModel_new = 0
  ∧ getNumFeatures (snd r) = 1
  ∧ snd r ≠ ImpactModel_new.
Proof.
  vm_compute. split_and!; try reflexivity. discriminate.
Qed.

(** C1, amended: a failed [loadModel] leaves [isLoaded] as it was; when the
    failure is a file that cannot be opened or parsed, it leaves every
    member as it was; and on an artifact that was not loaded, [predict]
    answers after the failure what it answered before. *)
Theorem failed_load_effect (fs : filesystem) (weights_path : string)
    (m : ImpactModel) :
  fst (loadModel fs weights_path m) = false →
  isLoaded (snd (loadModel fs weights_path m)) = isLoaded m
  ∧ (fs weights_path = None ∨ fs weights_path = Some NotJson →
     snd (loadModel fs weights_path m) = m)
  ∧ (isLoaded m = false →
     ∀ features,
       predict (snd (loadModel fs weights_path m)) features
       = predict m features).
Proof.
  intros Hfail.
  assert (Hloaded : loaded_ (snd (loadModel fs weights_path m)) = loaded_ m).
  { rewrite loadModel_loaded, Hfail. apply orb_false_r. }
  split_and!.
  - exact Hloaded.
  - intros [Hfile | Hfile]; unfold loadModel, Method.try_catch;
      by rewrite Hfile.
  - unfold isLoaded. intros Hunloaded features.
    rewrite !predict_unloaded; [done.. | congruence].
Qed.

Lemma failed_load_effect_witness :
  let fs := single_file "model.json" (Json coef_only_1) in
  isLoaded (snd (loadModel fs "model.json" ImpactModel_new))
  = isLoaded ImpactModel_new
  ∧ (fs "model.json" = None ∨ fs "model.json" = Some NotJson →
     snd (loadModel fs "model.json" ImpactModel_new) = ImpactModel_new)
  ∧ (isLoaded ImpactModel_new = false →
     ∀ features,
       predict (snd (loadModel fs "model.json" ImpactModel_new)) features
       = predict ImpactModel_new features).
Proof.
  apply (failed_load_effect (single_file "model.json" (Json coef_only_1))
           "model.json" ImpactModel_new).
  reflexivity.
Defined.

(** C8: once the artifact
    [{coef: [2.0], intercept: 1.0, scaler_mean: [0.0], scaler_scale: [1.0]}]
    has been loaded, into an object in any state, [predict([3.0])] returns
    exactly [7.0]. *)
Theorem known_value_scenario (fs : filesystem) (weights_path : string)
    (m0 : ImpactModel) :
  fs weights_path = Some (Json known_artifact) →
  ∃ m, loadModel fs weights_path m0 = (true, m)
       ∧ isLoaded m = true
       ∧ predict m [3%float] = Some 7%float.
Proof.
  intros Hfile. unfold known_artifact in Hfile.
  rewrite (loadModel_artifact _ _ _ _ _ _ m0 Hfile).
  eexists. split_and!; reflexivity.
Qed.

Lemma known_value_scenario_witness :
  ∃ m, loadModel (single_file "impact_model.json" (Json known_artifact))
         "impact_model.json" ImpactModel_new = (true, m)
       ∧ isLoaded m = true
       ∧ predict m [3%float] = Some 7%float.
Proof.
  apply known_value_scenario. reflexivity.
Defined.

(** ** Sequences of calls *)

Lemma call_step_inv m c v m' :
  call_step m c = Some (v, m') →
  (∃ fs weights_path b,
     c = CallLoadModel fs weights_path ∧ v = VBool b
     ∧ loadModel fs weights_path m = (b, m'))
  ∨ (∃ features d,
       c = CallPredict features ∧ v = VDouble d ∧ m' = m
       ∧ predict m features = Some d).
Proof.
  destruct c as [fs weights_path | features]; simpl; intros Hstep.
  - left. destruct (loadModel fs weights_path m) as [b m1] eqn:Hload.
    inversion Hstep; subst. by exists fs, weights_path, b.
  - right. destruct (predict m features) as [d|] eqn:Hpredict; [|done].
    inversion Hstep; subst. by exists features, d.
Qed.

(** No call clears [loaded_]. *)
Lemma call_step_loaded_mono m c v m' :
  call_step m c = Some (v, m') → loaded_ m = true → loaded_ m' = true.
Proof.
  intros Hstep Hloaded.
  destruct (call_step_inv _ _ _ _ Hstep)
    as [(fs & p & b & -> & -> & Hload) | (features & d & -> & -> & -> & _)];
    [|done].
  pose proof (loadModel_loaded fs p m) as Hl.
  rewrite Hload in Hl. simpl in Hl. by rewrite Hl, Hloaded.
Qed.

Lemma exec_loaded_mono m tr m' :
  exec m tr m' → loaded_ m = true → loaded_ m' = true.
Proof.
  induction 1 as [m | m c v m1 tr m2 Hstep _ IH]; [done|].
  intros Hloaded. apply IH. by apply (call_step_loaded_mono m c v).
Qed.

(** [loaded_] is set only by a [loadModel] that returns [true]. *)
Lemma call_step_sets_loaded m c v m' :
  call_step m c = Some (v, m') →
  loaded_ m = false → loaded_ m' = true →
  ∃ fs weights_path, c = CallLoadModel fs weights_path ∧ v = VBool true.
Proof.
  intros Hstep Hbefore Hafter.
  destruct (call_step_inv _ _ _ _ Hstep)
    as [(fs & p & b & -> & -> & Hload) | (features & d & -> & -> & -> & _)];
    [|congruence].
  pose proof (loadModel_loaded fs p m) as Hl.
  rewrite Hload in Hl. simpl in Hl. rewrite Hbefore, Hafter in Hl. simpl in Hl.
  subst b. by exists fs, p.
Qed.

Lemma exec_loaded_origin m tr m' :
  exec m tr m' → loaded_ m = false → loaded_ m' = true →
  ∃ fs weights_path, (CallLoadModel fs weights_path, VBool true) ∈ tr.
Proof.
  induction 1 as [m | m c v m1 tr m2 Hstep _ IH]; [congruence|].
  intros Hbefore Hafter. destruct (loaded_ m1) eqn:Hmid.
  - destruct (call_step_sets_loaded _ _ _ _ Hstep Hbefore Hmid)
      as (fs & p & -> & ->).
    exists fs, p. apply list_elem_of_here.
  - destruct (IH eq_refl Hafter) as (fs & p & Hin).
    exists fs, p. by apply list_elem_of_further.
Qed.

(** C7: along every sequence of [loadModel] and [predict] calls on a freshly
    constructed artifact, [isLoaded()] is true only if a [loadModel] call
    of the sequence has returned [true], and once it is true it is true
    after every further sequence of calls. *)
Theorem loaded_is_terminal (tr : list (call * value)) (m : ImpactModel) :
  exec ImpactModel_new tr m →
  (isLoaded m = true →
   ∃ fs weights_path, (CallLoadModel fs weights_path, VBool true) ∈ tr)
  ∧ (∀ tr' m', exec m tr' m' → isLoaded m = true → isLoaded m' = true)
  ∧ (∀ c v m', call_step m c = Some (v, m') →
       isLoaded m = false → isLoaded m' = true →
       ∃ fs weights_path, c = CallLoadModel fs weights_path ∧ v = VBool true).
Proof.
  intros Hexec. unfold isLoaded. split_and!.
  - intros Hloaded. by apply (exec_loaded_origin ImpactModel_new tr m).
  - intros tr' m' Hexec'. by apply (exec_loaded_mono m tr' m').
  - intros c v m'. apply call_step_sets_loaded.
Qed.

Lemma loaded_is_terminal_witness :
  let fs := single_file "model.json" (Json known_artifact) in
  let tr := [ (CallPredict [1%float], VDouble 0%float);
              (CallLoadModel fs "model.json", VBool true) ] in
  let m := mkImpactModel true 1 [2%float] 1%float [0%float] [1%float] in
  (isLoaded m = true →
   ∃ fs weights_path, (CallLoadModel fs weights_path, VBool true) ∈ tr)
  ∧ (∀ tr' m', exec m tr' m' → isLoaded m = true → isLoaded m' = true)
  ∧ (∀ c v m', call_step m c = Some (v, m') →
       isLoaded m = false → isLoaded m' = true →
       ∃ fs weights_path, c = CallLoadModel fs weights_path ∧ v = VBool true).
Proof.
  intros fs tr m. apply (loaded_is_terminal tr m).
  eapply exec_call; [reflexivity|].
  eapply exec_call; [reflexivity|].
  apply exec_done.
Defined.

(** C2 fails on the code: after a successful load, a load of
    [{"coef": [1.0, 2.0]}] returns [false] and leaves [loaded_] set with two
    coefficients, [n_features_ = 2], one mean and one scale; [predict] on
    two features then reads [scaler_scale_[1]] out of range. *)
Theorem failed_reload_breaks_dimensions :
  ∃ m,
    exec ImpactModel_new
      [ (CallLoadModel (single_file "model.json" (Json known_artifact))
           "model.json", VBool true);
        (CallLoadModel (single_file "model.json" (Json coef_only_2))
           "model.json", VBool false) ] m
    ∧ loaded_ m = true
    ∧ n_features_ m = 2
    ∧ vsize (coefficients_ m) = 2
    ∧ vsize (scaler_mean_ m) = 1
    ∧ vsize (scaler_scale_ m) = 1
    ∧ predict m [0%float; 0%float] = None.
Proof.
  eexists. split.
  - eapply exec_call; [reflexivity|].
    eapply exec_call; [reflexivity|].
    apply exec_done.
  - split_and!; reflexivity.
Qed.

(** ** Validation of the dimensions *)

Lemma triple_conj {A} P P' (c : Method.t A) Q Q' E E' :
  triple P c Q E → triple P' c Q' E' →
  triple (λ m, P m ∧ P' m) c (λ a m, Q a m ∧ Q' a m) (λ m, E m ∧ E' m).
Proof.
  intros Hc Hc' m [Hm Hm']. specialize (Hc m Hm). specialize (Hc' m Hm').
  by destruct (c m) as [[a|] m'].
Qed.

Lemma triple_returned {A} P (c : Method.t A) Q E m a m' :
  triple P c Q E → P m → c m = (Method.Returned a, m') → Q a m'.
Proof. intros Hc Hm Hrun. specialize (Hc m Hm). by rewrite Hrun in Hc. Qed.

(** One array key: cleared and refilled when present, with as many numbers
    as the array has elements if the loop returns. *)
Lemma array_key_sized (get : ImpactModel → list double)
    (set : list double → ImpactModel → ImpactModel)
    (push : double → ImpactModel → ImpactModel) (j : json) (key : string) :
  (∀ v m, get (set v m) = v) →
  (∀ ds m, get (foldl (λ m d, push d m) m ds) = get m ++ ds) →
  triple (λ _, True)
    (Method.when (contains j key && is_array (subscript j key))
       (Method.bind (Method.modify (set []))
          (λ _, push_all push (items (subscript j key)))))
    (λ _ m, sized_as_array j key (get m)) (λ _, True).
Proof.
  intros Hset Hpush m _.
  destruct (contains j key) eqn:Hcontains; simpl.
  - destruct (subscript j key) as [| | | |elems|] eqn:Hsub; simpl;
      try (intros elems' _ Hsub'; congruence).
    unfold Method.bind, Method.modify.
    destruct (push_all push elems (set [] m)) as [[[]|] m'] eqn:Hrun; [|done].
    destruct (push_all_returned _ _ _ _ Hrun) as (ds & -> & ->).
    intros elems' _ Hsub'. rewrite Hsub in Hsub'. injection Hsub' as <-.
    by rewrite Hpush, Hset, length_fmap.
  - intros elems' Habs. congruence.
Qed.

Lemma load_fields_sized j :
  triple (λ _, True) (load_fields j)
    (λ _ m, sized_as_array j "coef" (coefficients_ m)
            ∧ sized_as_array j "scaler_mean" (scaler_mean_ m)
            ∧ sized_as_array j "scaler_scale" (scaler_scale_ m))
    (λ _, True).
Proof.
  unfold load_fields.
  apply triple_bind with
    (R := λ _ m, sized_as_array j "coef" (coefficients_ m)).
  { apply (array_key_sized coefficients_ set_coefficients push_coefficient);
      [done|]. intros ds m. by rewrite foldl_push_coefficient. }
  intros _. apply triple_bind with
    (R := λ _ m, sized_as_array j "coef" (coefficients_ m)).
  { apply triple_weaken with
      (P' := λ m, sized_as_array j "coef" (coefficients_ m))
      (Q' := λ _ m, sized_as_array j "coef" (coefficients_ m))
      (E' := λ m, sized_as_array j "coef" (coefficients_ m)); try done.
    apply invariant_when, invariant_bind; [apply invariant_try_get|].
    intros d. apply invariant_modify. by intros m Hm. }
  intros _. apply triple_bind with
    (R := λ _ m, sized_as_array j "coef" (coefficients_ m)
                 ∧ sized_as_array j "scaler_mean" (scaler_mean_ m)).
  { apply triple_weaken with
      (P' := λ m, sized_as_array j "coef" (coefficients_ m) ∧ True)
      (Q' := λ _ m, sized_as_array j "coef" (coefficients_ m)
                    ∧ sized_as_array j "scaler_mean" (scaler_mean_ m))
      (E' := λ m, sized_as_array j "coef" (coefficients_ m) ∧ True); try done.
    apply triple_conj.
    - apply invariant_when, invariant_bind.
      + apply invariant_modify. by intros m Hm.
      + intros _. apply invariant_push_all. by intros d m Hm.
    - apply (array_key_sized scaler_mean_ set_scaler_mean push_scaler_mean);
        [done|]. intros ds m. by rewrite foldl_push_scaler_mean. }
  intros _.
  apply triple_weaken with
    (P' := λ m, (sized_as_array j "coef" (coefficients_ m)
                 ∧ sized_as_array j "scaler_mean" (scaler_mean_ m)) ∧ True)
    (Q' := λ _ m, (sized_as_array j "coef" (coefficients_ m)
                   ∧ sized_as_array j "scaler_mean" (scaler_mean_ m))
                  ∧ sized_as_array j "scaler_scale" (scaler_scale_ m))
    (E' := λ m, (sized_as_array j "coef" (coefficients_ m)
                 ∧ sized_as_array j "scaler_mean" (scaler_mean_ m)) ∧ True);
    [| by intros m Hm | by intros _ m [[? ?] ?] | done].
  apply triple_conj.
  - apply invariant_when, invariant_bind.
    + apply invariant_modify. by intros m Hm.
    + intros _. apply invariant_push_all. by intros d m Hm.
  - apply (array_key_sized scaler_scale_ set_scaler_scale push_scaler_scale);
      [done|]. intros ds m. by rewrite foldl_push_scaler_scale.
Qed.

(** With a coefficient count that fits an [int], the validation rejects no
    coefficients and every mismatch of lengths. *)
Lemma validate_and_commit_rejects m :
  vsize (coefficients_ m) ≤ Int.INT_MAX →
  length (coefficients_ m) = 0%nat
  ∨ length (scaler_mean_ m) ≠ length (coefficients_ m)
  ∨ length (scaler_scale_ m) ≠ length (coefficients_ m) →
  fst (validate_and_commit m) = Method.Returned false.
Proof.
  intros Hfits Hbad.
  unfold validate_and_commit, Method.bind, Method.modify, Method.get.
  assert (Hinvalid : invalid_dimensions
            (set_n_features (Int.of_size_t (vsize (coefficients_ m))) m) = true).
  { unfold invalid_dimensions. cbn [set_n_features n_features_ scaler_mean_ scaler_scale_].
    rewrite of_size_t_small by (pose proof (vsize_nonneg (coefficients_ m)); lia).
    rewrite to_size_t_small
      by (pose proof (vsize_nonneg (coefficients_ m));
          unfold Int.INT_MAX, Int.size_modulus in *; lia).
    unfold vsize in *.
    destruct Hbad as [Hzero | [Hmean | Hscale]].
    - rewrite Hzero. done.
    - apply orb_true_iff. left. apply orb_true_iff. right.
      apply negb_true_iff, Z.eqb_neq. lia.
    - apply orb_true_iff. right. apply negb_true_iff, Z.eqb_neq. lia. }
  by rewrite Hinvalid.
Qed.

(** X15 (what holds of C5 on the code): a document whose coefficient array
    fits an [int] and is empty, or differs in length from its mean or scale
    array, is rejected, and [loaded_] is left as it was. *)
Lemma loadModel_rejects_dimensions fs weights_path m j coef_elems :
  fs weights_path = Some (Json j) →
  contains j "coef" = true →
  subscript j "coef" = JArray coef_elems →
  vsize coef_elems ≤ Int.INT_MAX →
  coef_elems = []
  ∨ (∃ mean_elems,
       contains j "scaler_mean" = true
       ∧ subscript j "scaler_mean" = JArray mean_elems
       ∧ length mean_elems ≠ length coef_elems)
  ∨ (∃ scale_elems,
       contains j "scaler_scale" = true
       ∧ subscript j "scaler_scale" = JArray scale_elems
       ∧ length scale_elems ≠ length coef_elems) →
  fst (loadModel fs weights_path m) = false
  ∧ loaded_ (snd (loadModel fs weights_path m)) = loaded_ m.
Proof.
  intros Hfile Hcontains Hsub Hfits Hbad.
  assert (Hfail : fst (loadModel fs weights_path m) = false).
  { unfold loadModel, Method.try_catch. rewrite Hfile.
    unfold load_from. cbn [Method.try_get].
    unfold Method.bind at 1. cbn [Method.ret].
    unfold Method.bind at 1.
    destruct (load_fields j m) as [[[]|] m1] eqn:Hfields; [|done].
    destruct (triple_returned _ _ _ _ _ _ _ (load_fields_sized j) I Hfields)
      as (Hc & Hm & Hs).
    specialize (Hc coef_elems Hcontains Hsub).
    pose proof (validate_and_commit_rejects m1) as Hreject.
    destruct (validate_and_commit m1) as [[b|] m2]; [|done].
    simpl in *. enough (Method.Returned b = Method.Returned false) by congruence.
    apply Hreject.
    - unfold vsize in *. lia.
    - destruct Hbad as [-> | [(elems & Hk & Hv & Hne) | (elems & Hk & Hv & Hne)]].
      + left. by rewrite Hc.
      + right. left. rewrite (Hm elems Hk Hv). lia.
      + right. right. rewrite (Hs elems Hk Hv). lia. }
  split; [done|]. rewrite loadModel_loaded, Hfail. apply orb_false_r.
Qed.

Lemma oversized_size :
  vsize (replicate oversized_count 0%float) = 4294967297.
Proof.
  unfold vsize, oversized_count. rewrite length_replicate.
  apply Z2Nat.id. lia.
Qed.

(** C5 fails on the code: the feature count is kept in an [int], so a
    document with 2^32 + 1 coefficients, one mean and one scale passes the
    validation with [n_features_ = 1]; on a fresh artifact [loadModel]
    returns [true] and sets [loaded_], although the three lengths differ. *)
Theorem oversized_artifact_loads :
  let r := loadModel (single_file "model.json" (Json oversized_artifact))
             "model.json" ImpactModel_new in
  fst r = true
  ∧ loaded_ (snd r) = true
  ∧ n_features_ (snd r) = 1
  ∧ vsize (coefficients_ (snd r)) = 4294967297
  ∧ vsize (scaler_mean_ (snd r)) = 1
  ∧ vsize (scaler_scale_ (snd r)) = 1.
Proof.
  intros r. subst r.
  rewrite (loadModel_artifact _ _ (replicate oversized_count 0%float)
             0%float [0%float] [1%float]) by reflexivity.
  cbv zeta. rewrite oversized_size.
  change (Int.of_size_t 4294967297) with 1.
  unfold invalid_dimensions.
  cbn [n_features_ scaler_mean_ scaler_scale_ coefficients_ loaded_].
  change (Int.to_size_t 1) with 1.
  change (vsize [0%float]) with 1. change (vsize [1%float]) with 1.
  cbn [Z.eqb Pos.eqb negb orb fst snd set_loaded
       n_features_ scaler_mean_ scaler_scale_ coefficients_ loaded_].
  split_and!;
    [ reflexivity | reflexivity | reflexivity
    | apply oversized_size | reflexivity | reflexivity ].
Qed.

(** * Further properties of the code *)

(** ** normalize and predict on any object *)

Lemma normalize_step_Some m features i (normalized normalized' : list double) :
  normalize_step m features i normalized = Some normalized' →
  (i < length normalized)%nat
  ∧ (i < length (scaler_scale_ m))%nat
  ∧ normalized'
    = <[i := Formula.normalized (scaler_mean_ m) (scaler_scale_ m) features i]>
        normalized.
Proof.
  unfold normalize_step, vget, Formula.normalized, Formula.nth_or_zero, scale_epsilon.
  destruct (scaler_scale_ m !! i) as [scale|] eqn:Hscale; [|done].
  apply lookup_lt_Some in Hscale as Hlt.
  cbn [mbind option_bind default from_option id].
  destruct (1e-6 <? scale)%float.
  - destruct (features !! i) as [x|]; [|done].
    destruct (scaler_mean_ m !! i) as [mean|]; [|done].
    cbn [mbind option_bind default from_option id]. unfold vset.
    case_decide; [|done]. by intros [= <-].
  - unfold vset. case_decide; [|done]. by intros [= <-].
Qed.

Lemma normalize_loop_Some m features count : ∀ i (normalized normalized' : list double),
  for_loop (normalize_step m features) count i normalized = Some normalized' →
  length normalized' = length normalized
  ∧ (count = 0%nat ∨ i + count ≤ length normalized)%nat
  ∧ (∀ j, (i ≤ j < i + count)%nat →
          normalized' !! j
          = Some (Formula.normalized (scaler_mean_ m) (scaler_scale_ m) features j))
  ∧ (∀ j, (j < i ∨ i + count ≤ j)%nat → normalized' !! j = normalized !! j).
Proof.
  induction count as [|count IH]; intros i normalized normalized' Hrun.
  - injection Hrun as <-. split_and!; auto. intros j Hj. lia.
  - cbn [for_loop] in Hrun.
    destruct (normalize_step m features i normalized) as [acc|] eqn:Hstep; [|done].
    cbn [mbind option_bind] in Hrun.
    destruct (normalize_step_Some _ _ _ _ _ Hstep) as (Hi & _ & ->).
    destruct (IH _ _ _ Hrun) as (Hlen & Hcount & Hin & Hout).
    rewrite length_insert in Hlen, Hcount. split_and!.
    + done.
    + right. destruct Hcount as [-> | Hcount]; lia.
    + intros j Hj. destruct (decide (j = i)) as [->|Hne].
      * rewrite Hout by lia. by apply list_lookup_insert_eq.
      * apply Hin. lia.
    + intros j Hj. rewrite Hout by lia. apply list_lookup_insert_ne. lia.
Qed.

Lemma normalize_length m features (normalized : list double) :
  normalize m features = Some normalized →
  length normalized = Z.to_nat (Int.to_size_t (n_features_ m)).
Proof.
  unfold normalize. intros Hrun.
  destruct (normalize_loop_Some _ _ _ _ _ _ Hrun) as (Hlen & _).
  by rewrite length_replicate in Hlen.
Qed.

(** X1: whenever [normalize] runs to completion, on any object and any
    feature vector, it returns exactly [n_features_] values, the one at
    index [i] being [(features[i] - scaler_mean_[i]) / scaler_scale_[i]]
    where [scaler_scale_[i] > 1e-6] and [0.0] elsewhere. *)
Theorem normalize_returns_formula (m : ImpactModel)
    (features normalized : list double) :
  normalize m features = Some normalized →
  normalized
  = Formula.normalized (scaler_mean_ m) (scaler_scale_ m) features
    <$> seq 0 (Z.to_nat (Int.to_size_t (n_features_ m))).
Proof.
  unfold normalize. intros Hrun.
  destruct (normalize_loop_Some _ _ _ _ _ _ Hrun) as (Hlen & _ & Hin & _).
  rewrite length_replicate in Hlen.
  apply list_eq. intros j. rewrite list_lookup_fmap.
  destruct (decide (j < Z.to_nat (Int.to_size_t (n_features_ m)))%nat) as [Hj|Hj].
  - rewrite Hin by lia. by rewrite lookup_seq_lt.
  - rewrite lookup_ge_None_2 by lia. by rewrite lookup_seq_ge by lia.
Qed.

Lemma normalize_returns_formula_witness :
  [2%float; 0%float; 1%float]
  = Formula.normalized (scaler_mean_ three_features)
      (scaler_scale_ three_features) [4%float; 5%float; 6%float]
    <$> seq 0 (Z.to_nat (Int.to_size_t (n_features_ three_features))).
Proof.
  apply (normalize_returns_formula three_features [4%float; 5%float; 6%float]).
  reflexivity.
Defined.

Lemma normalize_enough m features :
  vsize features = Int.to_size_t (n_features_ m) →
  Int.to_size_t (n_features_ m) ≤ vsize (scaler_mean_ m) →
  Int.to_size_t (n_features_ m) ≤ vsize (scaler_scale_ m) →
  normalize m features
  = Some (Formula.normalized (scaler_mean_ m) (scaler_scale_ m) features
          <$> seq 0 (length features)).
Proof.
  intros Hfeat Hmean Hscale. unfold normalize.
  rewrite <- Hfeat in *. unfold vsize in *. rewrite Nat2Z.id.
  destruct (normalize_loop_lookup m features (length features) 0
              (replicate (length features) 0%float))
    as (res & Hrun & Hlen & Hin & _);
    rewrite ?length_replicate; try lia.
  rewrite Hrun. f_equal. rewrite length_replicate in Hlen.
  apply list_eq. intros j. rewrite list_lookup_fmap.
  destruct (decide (j < length features)%nat) as [Hj|Hj].
  - rewrite Hin by lia. by rewrite lookup_seq_lt.
  - rewrite lookup_ge_None_2 by lia. by rewrite lookup_seq_ge by lia.
Qed.

(** The accumulation over the normalized values is the formula's sum; only
    the first [length features] coefficients are read. *)
Lemma accumulate_formula m features :
  (length features ≤ length (coefficients_ m))%nat →
  for_loop
    (predict_step m
       (Formula.normalized (scaler_mean_ m) (scaler_scale_ m) features
        <$> seq 0 (length features)))
    (length features) 0%nat (intercept_ m)
  = Some (Formula.result (length features) (coefficients_ m) (intercept_ m)
            (scaler_mean_ m) (scaler_scale_ m) features).
Proof.
  intros Hcoef.
  rewrite predict_loop_foldl by (rewrite ?length_fmap, ?length_seq; lia).
  f_equal. unfold Formula.result.
  apply foldl_ext_seq. intros acc j Hj. do 2 f_equal.
  unfold Formula.nth_or_zero at 1.
  by rewrite list_lookup_fmap, lookup_seq_lt by lia.
Qed.

Lemma predict_enough m features :
  loaded_ m = true →
  vsize features = Int.to_size_t (n_features_ m) →
  Int.to_size_t (n_features_ m) ≤ vsize (coefficients_ m) →
  Int.to_size_t (n_features_ m) ≤ vsize (scaler_mean_ m) →
  Int.to_size_t (n_features_ m) ≤ vsize (scaler_scale_ m) →
  predict m features
  = Some (Formula.result (length features) (coefficients_ m) (intercept_ m)
            (scaler_mean_ m) (scaler_scale_ m) features).
Proof.
  intros Hloaded Hfeat Hcoef Hmean Hscale. unfold predict.
  rewrite Hloaded, Hfeat, Z.eqb_refl. cbn [negb].
  rewrite normalize_enough by done. cbn [mbind option_bind].
  rewrite length_fmap, length_seq.
  apply accumulate_formula. unfold vsize in *. lia.
Qed.

(** X2: [predict] and [normalize] read only the entries below
    [n_features_]. On a loaded object whose three vectors hold at least
    [n_features_] entries, and for a feature vector of [n_features_]
    entries, [predict] is defined and returns the affine combination over
    the first [n_features_] entries; what the vectors hold beyond is
    ignored. *)
Theorem predict_reads_prefix (m : ImpactModel) (features : list double) :
  loaded_ m = true →
  vsize features = Int.to_size_t (n_features_ m) →
  Int.to_size_t (n_features_ m) ≤ vsize (coefficients_ m) →
  Int.to_size_t (n_features_ m) ≤ vsize (scaler_mean_ m) →
  Int.to_size_t (n_features_ m) ≤ vsize (scaler_scale_ m) →
  let N := Z.to_nat (Int.to_size_t (n_features_ m)) in
  predict m features
  = Some (Formula.result N (take N (coefficients_ m)) (intercept_ m)
            (take N (scaler_mean_ m)) (take N (scaler_scale_ m)) features).
Proof.
  intros Hloaded Hfeat Hcoef Hmean Hscale N.
  rewrite predict_enough by done.
  assert (HN : N = length features).
  { subst N. rewrite <- Hfeat. unfold vsize. lia. }
  rewrite <- HN. f_equal. unfold Formula.result.
  apply foldl_ext_seq. intros acc j Hj.
  unfold Formula.normalized, Formula.nth_or_zero.
  by rewrite !lookup_take_lt by lia.
Qed.

Lemma predict_reads_prefix_witness :
  let N := Z.to_nat (Int.to_size_t (n_features_ padded_model)) in
  predict padded_model [4%float; 9%float]
  = Some (Formula.result N (take N (coefficients_ padded_model))
            (intercept_ padded_model)
            (take N (scaler_mean_ padded_model))
            (take N (scaler_scale_ padded_model)) [4%float; 9%float]).
Proof.
  apply (predict_reads_prefix padded_model [4%float; 9%float]);
    vm_compute; first [reflexivity | discriminate].
Defined.

(** A loop in which some iteration fails whatever it is given fails. *)
Lemma for_loop_None {S} (body : nat → S → option S) k count : ∀ i s,
  (i ≤ k < i + count)%nat →
  (∀ s', body k s' = None) →
  for_loop body count i s = None.
Proof.
  induction count as [|count IH]; intros i s Hk Hfail; [lia|].
  cbn [for_loop]. destruct (decide (k = i)) as [->|Hne].
  - by rewrite Hfail.
  - destruct (body i s) as [s'|]; [|done]. cbn [mbind option_bind].
    apply IH; [lia | done].
Qed.

(** X3: on a loaded object, a feature vector of [n_features_] entries makes
    [predict] index out of range as soon as [scaler_scale_] or
    [coefficients_] holds fewer than [n_features_] entries: the call has
    undefined behaviour instead of returning [0.0]. *)
Theorem predict_out_of_range (m : ImpactModel) (features : list double) :
  loaded_ m = true →
  vsize features = Int.to_size_t (n_features_ m) →
  vsize (scaler_scale_ m) < Int.to_size_t (n_features_ m)
  ∨ vsize (coefficients_ m) < Int.to_size_t (n_features_ m) →
  predict m features = None.
Proof.
  intros Hloaded Hfeat Hshort. unfold predict.
  rewrite Hloaded, Hfeat, Z.eqb_refl. cbn [negb].
  destruct (normalize m features) as [normalized|] eqn:Hnorm; [|done].
  cbn [mbind option_bind].
  pose proof (normalize_length m features normalized Hnorm) as Hlen.
  destruct Hshort as [Hscale | Hcoef].
  - exfalso. unfold normalize in Hnorm.
    rewrite (for_loop_None _ (length (scaler_scale_ m))) in Hnorm; [done| |].
    + unfold vsize in *. lia.
    + intros acc. unfold normalize_step, vget.
      by rewrite (lookup_ge_None_2 (scaler_scale_ m)) by lia.
  - apply (for_loop_None _ (length (coefficients_ m))).
    + unfold vsize in *. lia.
    + intros acc. unfold predict_step, vget.
      by rewrite (lookup_ge_None_2 (coefficients_ m)) by lia.
Qed.

Lemma predict_out_of_range_witness :
  predict stale_model [0%float; 0%float] = None.
Proof.
  apply predict_out_of_range; [reflexivity | reflexivity |].
  left. reflexivity.
Defined.

(** ** loadModel on complete, partial and ill-typed documents *)

(** Dimensions that pass the validation of [loadModel]. *)
Lemma valid_dimensions loaded (coef : list double) intercept
    (scaler_mean scaler_scale : list double) :
  1 ≤ vsize coef ≤ Int.INT_MAX →
  vsize scaler_mean = vsize coef →
  vsize scaler_scale = vsize coef →
  Int.of_size_t (vsize coef) = vsize coef
  ∧ invalid_dimensions
      {| loaded_ := loaded; n_features_ := Int.of_size_t (vsize coef);
         coefficients_ := coef; intercept_ := intercept;
         scaler_mean_ := scaler_mean; scaler_scale_ := scaler_scale |} = false.
Proof.
  intros Hcoef Hmean Hscale.
  assert (Hn : Int.of_size_t (vsize coef) = vsize coef)
    by (apply of_size_t_small; lia).
  split; [done|]. unfold invalid_dimensions.
  cbn [n_features_ scaler_mean_ scaler_scale_]. rewrite Hn.
  rewrite to_size_t_small
    by (unfold Int.INT_MAX, Int.size_modulus in *; lia).
  rewrite Hmean, Hscale, Z.eqb_refl. cbn [negb orb].
  rewrite !orb_false_r. apply Z.eqb_neq. lia.
Qed.





(** A document with none of the four keys leaves the reading of the keys
    without effect. *)
Lemma load_fields_no_key j m :
  contains j "coef" = false →
  contains j "intercept" = false →
  contains j "scaler_mean" = false →
  contains j "scaler_scale" = false →
  load_fields j m = (Method.Returned tt, m).
Proof.
  intros Hcoef Hintercept Hmean Hscale. unfold load_fields.
  by rewrite Hcoef, Hintercept, Hmean, Hscale.
Qed.

(** X6: a document with none of the four keys (an empty object, or any JSON
    value that is not an object) makes [loadModel] validate what the object
    already holds: if it holds between 1 and [INT_MAX] coefficients and as
    many means and scales, the call returns [true], sets [loaded_] and
    [n_features_], and keeps the four numeric members, whether or not the
    object was loaded before. *)
Theorem loadModel_without_keys (fs : filesystem) (weights_path : string)
    (m : ImpactModel) (j : json) :
  fs weights_path = Some (Json j) →
  contains j "coef" = false →
  contains j "intercept" = false →
  contains j "scaler_mean" = false →
  contains j "scaler_scale" = false →
  1 ≤ vsize (coefficients_ m) ≤ Int.INT_MAX →
  vsize (scaler_mean_ m) = vsize (coefficients_ m) →
  vsize (scaler_scale_ m) = vsize (coefficients_ m) →
  loadModel fs weights_path m
  = (true, {| loaded_ := true; n_features_ := vsize (coefficients_ m);
              coefficients_ := coefficients_ m; intercept_ := intercept_ m;
              scaler_mean_ := scaler_mean_ m;
              scaler_scale_ := scaler_scale_ m |}).
Proof.
  intros Hfile Hc Hi Hm Hs Hcoef Hmean Hscale.
  unfold loadModel, Method.try_catch. rewrite Hfile.
  unfold load_from. cbn [Method.try_get].
  unfold Method.bind at 1. cbn [Method.ret].
  unfold Method.bind at 1. rewrite load_fields_no_key by done.
  unfold validate_and_commit, Method.bind, Method.modify, Method.get.
  unfold set_n_features.
  destruct (valid_dimensions (loaded_ m) (coefficients_ m) (intercept_ m)
              (scaler_mean_ m) (scaler_scale_ m)) as [Hn ->]; try done.
  unfold set_loaded. cbn. by rewrite Hn.
Qed.

Lemma loadModel_without_keys_witness :
  loadModel (single_file "empty.json" (Json (JArray []))) "empty.json"
    three_features
  = (true, {| loaded_ := true;
              n_features_ := vsize (coefficients_ three_features);
              coefficients_ := coefficients_ three_features;
              intercept_ := intercept_ three_features;
              scaler_mean_ := scaler_mean_ three_features;
              scaler_scale_ := scaler_scale_ three_features |}).
Proof.
  apply (loadModel_without_keys
           (single_file "empty.json" (Json (JArray []))) "empty.json"
           three_features (JArray []));
    vm_compute; first [reflexivity | split; discriminate].
Defined.

(** X7: partial documents accumulate. On a fresh object, a file with only
    the coefficients and the intercept is rejected but its numbers stay in
    the object; a second file with only the scaler arrays then completes
    the model, and the object ends as if one complete document had been
    loaded. *)
Theorem loadModel_two_partial_documents (fs : filesystem)
    (path1 path2 : string) (coef : list double) (intercept : double)
    (scaler_mean scaler_scale : list double) :
  fs path1 = Some (Json (coef_document coef intercept)) →
  fs path2 = Some (Json (scaler_document scaler_mean scaler_scale)) →
  1 ≤ vsize coef ≤ Int.INT_MAX →
  vsize scaler_mean = vsize coef →
  vsize scaler_scale = vsize coef →
  let '(ok1, m1) := loadModel fs path1 ImpactModel_new in
  let '(ok2, m2) := loadModel fs path2 m1 in
  ok1 = false
  ∧ ok2 = true
  ∧ m2 = {| loaded_ := true; n_features_ := vsize coef;
            coefficients_ := coef; intercept_ := intercept;
            scaler_mean_ := scaler_mean; scaler_scale_ := scaler_scale |}.
Proof.
  intros Hfile1 Hfile2 Hcoef Hmean Hscale.
  assert (Hfirst : loadModel fs path1 ImpactModel_new
    = (false, {| loaded_ := false; n_features_ := vsize coef;
                 coefficients_ := coef; intercept_ := intercept;
                 scaler_mean_ := []; scaler_scale_ := [] |})).
  { unfold loadModel, Method.try_catch. rewrite Hfile1.
    unfold load_from. cbn [Method.try_get].
    unfold Method.bind at 1. cbn [Method.ret].
    unfold Method.bind at 1.
    assert (Hfields : load_fields (coef_document coef intercept) ImpactModel_new
      = (Method.Returned tt, set_intercept intercept
           (set_coefficients coef ImpactModel_new))).
    { unfold load_fields, coef_document.
      change (contains _ "coef") with true.
      change (contains _ "intercept") with true.
      change (contains _ "scaler_mean") with false.
      change (contains _ "scaler_scale") with false.
      change (subscript _ "coef") with (JArray (JNumber <$> coef)).
      change (subscript _ "intercept") with (JNumber intercept).
      cbn [is_array items get_double andb Method.when Method.try_get].
      unfold Method.bind, Method.modify, Method.ret.
      rewrite push_all_numbers, foldl_push_coefficient. reflexivity. }
    rewrite Hfields.
    unfold validate_and_commit, Method.bind, Method.modify, Method.get.
    unfold set_intercept, set_coefficients, set_n_features, ImpactModel_new.
    cbn [coefficients_ loaded_ n_features_ intercept_ scaler_mean_ scaler_scale_].
    rewrite of_size_t_small by lia.
    unfold invalid_dimensions. cbn [n_features_ scaler_mean_ scaler_scale_].
    rewrite to_size_t_small
      by (unfold Int.INT_MAX, Int.size_modulus in *; lia).
    change (vsize []) with 0.
    destruct (Z.eqb_spec (vsize coef) 0) as [Hz|Hz]; [lia|].
    destruct (Z.eqb_spec 0 (vsize coef)) as [Hz'|Hz']; [lia|].
    reflexivity. }
  rewrite Hfirst.
  assert (Hsecond : loadModel fs path2
      {| loaded_ := false; n_features_ := vsize coef;
         coefficients_ := coef; intercept_ := intercept;
         scaler_mean_ := []; scaler_scale_ := [] |}
    = (true, {| loaded_ := true; n_features_ := vsize coef;
                coefficients_ := coef; intercept_ := intercept;
                scaler_mean_ := scaler_mean; scaler_scale_ := scaler_scale |})).
  { unfold loadModel, Method.try_catch. rewrite Hfile2.
    unfold load_from. cbn [Method.try_get].
    unfold Method.bind at 1. cbn [Method.ret].
    unfold Method.bind at 1.
    match goal with
    | |- context [load_fields ?j ?m] =>
        assert (Hfields : load_fields j m
          = (Method.Returned tt,
             set_scaler_scale scaler_scale (set_scaler_mean scaler_mean m)))
    end.
    { unfold load_fields, scaler_document.
      change (contains _ "coef") with false.
      change (contains _ "intercept") with false.
      change (contains _ "scaler_mean") with true.
      change (contains _ "scaler_scale") with true.
      change (subscript _ "scaler_mean") with (JArray (JNumber <$> scaler_mean)).
      change (subscript _ "scaler_scale") with (JArray (JNumber <$> scaler_scale)).
      cbn [is_array items andb Method.when].
      unfold Method.bind, Method.modify, Method.ret.
      rewrite !push_all_numbers, foldl_push_scaler_mean, foldl_push_scaler_scale.
      reflexivity. }
    rewrite Hfields.
    unfold validate_and_commit, Method.bind, Method.modify, Method.get.
    unfold set_scaler_mean, set_scaler_scale, set_n_features.
    cbn [coefficients_ loaded_ n_features_ intercept_ scaler_mean_ scaler_scale_].
    destruct (valid_dimensions false coef intercept scaler_mean scaler_scale)
      as [Hn ->]; try done.
    unfold set_loaded. cbn. by rewrite Hn. }
  by rewrite Hsecond.
Qed.

Lemma loadModel_two_partial_documents_witness :
  let fs := two_files "coef.json" (Json (coef_document [2%float] 1%float))
              "scaler.json" (Json (scaler_document [0%float] [1%float])) in
  let '(ok1, m1) := loadModel fs "coef.json" ImpactModel_new in
  let '(ok2, m2) := loadModel fs "scaler.json" m1 in
  ok1 = false
  ∧ ok2 = true
  ∧ m2 = {| loaded_ := true; n_features_ := vsize [2%float];
            coefficients_ := [2%float]; intercept_ := 1%float;
            scaler_mean_ := [0%float]; scaler_scale_ := [1%float] |}.
Proof.
  apply (loadModel_two_partial_documents
           (two_files "coef.json" (Json (coef_document [2%float] 1%float))
              "scaler.json" (Json (scaler_document [0%float] [1%float])))
           "coef.json" "scaler.json" [2%float] 1%float [0%float] [1%float]);
    vm_compute; first [reflexivity | split; discriminate].
Defined.

(** A loop that meets a value which is not a number throws there, having
    pushed the numbers before it. *)
Lemma push_all_thrown push (ds : list double) bad rest : ∀ m,
  get_double bad = None →
  push_all push ((JNumber <$> ds) ++ bad :: rest) m
  = (Method.Thrown, foldl (λ m d, push d m) m ds).
Proof.
  induction ds as [|d ds IH]; intros m Hbad.
  - simpl. unfold Method.bind. by rewrite Hbad.
  - simpl. unfold Method.bind at 1. simpl. unfold Method.bind at 1. simpl.
    by apply IH.
Qed.

(** X8: a coefficient array with an element that is not a number makes
    [loadModel] return [false] from the [catch] block with the object
    half-written: [coefficients_] holds the numbers that precede that
    element, and the other members, [n_features_] and [loaded_] among them,
    are as before the call. *)
Theorem loadModel_coef_not_a_number (fs : filesystem) (weights_path : string)
    (m : ImpactModel) (j : json) (ds : list double) (bad : json)
    (rest : list json) :
  fs weights_path = Some (Json j) →
  contains j "coef" = true →
  subscript j "coef" = JArray ((JNumber <$> ds) ++ bad :: rest) →
  get_double bad = None →
  loadModel fs weights_path m = (false, set_coefficients ds m).
Proof.
  intros Hfile Hcontains Hsub Hbad.
  unfold loadModel, Method.try_catch. rewrite Hfile.
  unfold load_from. cbn [Method.try_get].
  unfold Method.bind at 1. cbn [Method.ret].
  unfold Method.bind at 1.
  assert (Hfields : load_fields j m = (Method.Thrown, set_coefficients ds m)).
  { unfold load_fields. rewrite Hcontains, Hsub.
    cbn [is_array items andb Method.when].
    unfold Method.bind at 1. unfold Method.bind at 1.
    unfold Method.modify at 1.
    rewrite push_all_thrown, foldl_push_coefficient by done.
    reflexivity. }
  by rewrite Hfields.
Qed.

Lemma loadModel_coef_not_a_number_witness :
  loadModel (single_file "model.json" (Json coef_with_string)) "model.json"
    three_features
  = (false, set_coefficients [1%float] three_features).
Proof.
  apply (loadModel_coef_not_a_number
           (single_file "model.json" (Json coef_with_string)) "model.json"
           three_features coef_with_string [1%float] (JString "x")
           [JNumber 3%float]); reflexivity.
Defined.

(** ** What a call of loadModel leaves alone *)

Lemma invariant_skip (I : ImpactModel → Prop) (c : Method.t unit) :
  invariant I (Method.when false c).
Proof. by intros m Hm. Qed.

Lemma invariant_snd {A} (I : ImpactModel → Prop) (c : Method.t A) m :
  invariant I c → I m → I (snd (c m)).
Proof.
  intros Hc Hm. specialize (Hc m Hm). by destruct (c m) as [[a|] m'].
Qed.

Ltac frame_load_fields :=
  repeat lazymatch goal with
    | |- invariant _ (Method.when false _) => apply invariant_skip
    | |- invariant _ (Method.bind _ _) => apply invariant_bind; [|intros ?]
    | |- invariant _ (Method.when _ _) => apply invariant_when
    | |- invariant _ (Method.try_get _) => apply invariant_try_get
    | |- invariant _ (push_all _ _) =>
        apply invariant_push_all; intros ? ? ?; assumption
    | |- invariant _ (Method.modify _) =>
        apply invariant_modify; intros ? ?; assumption
    end.

(** The validation writes [n_features_] and [loaded_] only. *)
Lemma validate_and_commit_members m :
  let m' := snd (validate_and_commit m) in
  coefficients_ m' = coefficients_ m
  ∧ intercept_ m' = intercept_ m
  ∧ scaler_mean_ m' = scaler_mean_ m
  ∧ scaler_scale_ m' = scaler_scale_ m.
Proof.
  unfold validate_and_commit, Method.bind, Method.modify, Method.get.
  by destruct (invalid_dimensions _).
Qed.

(** A property of the numeric members that the reading of the keys keeps is
    kept by the whole call. *)
Lemma loadModel_frame (I : ImpactModel → Prop) fs weights_path j m :
  fs weights_path = Some (Json j) →
  invariant I (load_fields j) →
  (∀ m0, I m0 → I (snd (validate_and_commit m0))) →
  I m → I (snd (loadModel fs weights_path m)).
Proof.
  intros Hfile Hfields Hvalidate Hm.
  unfold loadModel, Method.try_catch. rewrite Hfile.
  unfold load_from. cbn [Method.try_get].
  unfold Method.bind at 1. cbn [Method.ret].
  unfold Method.bind at 1.
  pose proof (invariant_snd I (load_fields j) m Hfields Hm) as Hm1.
  destruct (load_fields j m) as [[[]|] m1]; [|done].
  cbn [snd] in Hm1. specialize (Hvalidate m1 Hm1).
  by destruct (validate_and_commit m1) as [[b|] m2].
Qed.

(** X9: a key that is absent from the document (or, for the three array
    keys, present with a value that is not an array) is skipped: whatever
    else the document holds and whatever [loadModel] returns, the member
    that key feeds keeps its previous value. *)
Theorem loadModel_skips_absent_keys (fs : filesystem) (weights_path : string)
    (m : ImpactModel) (j : json) :
  fs weights_path = Some (Json j) →
  let m' := snd (loadModel fs weights_path m) in
  (contains j "coef" && is_array (subscript j "coef") = false →
   coefficients_ m' = coefficients_ m)
  ∧ (contains j "intercept" = false → intercept_ m' = intercept_ m)
  ∧ (contains j "scaler_mean" && is_array (subscript j "scaler_mean") = false →
     scaler_mean_ m' = scaler_mean_ m)
  ∧ (contains j "scaler_scale" && is_array (subscript j "scaler_scale") = false →
     scaler_scale_ m' = scaler_scale_ m).
Proof.
  intros Hfile m'. subst m'. split_and!; intros Habsent.
  - apply (loadModel_frame (λ m0, coefficients_ m0 = coefficients_ m) _ _ j);
      [done | | | done].
    + unfold load_fields. rewrite Habsent. frame_load_fields.
    + intros m0 <-. apply validate_and_commit_members.
  - apply (loadModel_frame (λ m0, intercept_ m0 = intercept_ m) _ _ j);
      [done | | | done].
    + unfold load_fields. rewrite Habsent. frame_load_fields.
    + intros m0 <-. apply validate_and_commit_members.
  - apply (loadModel_frame (λ m0, scaler_mean_ m0 = scaler_mean_ m) _ _ j);
      [done | | | done].
    + unfold load_fields. rewrite Habsent. frame_load_fields.
    + intros m0 <-. apply validate_and_commit_members.
  - apply (loadModel_frame (λ m0, scaler_scale_ m0 = scaler_scale_ m) _ _ j);
      [done | | | done].
    + unfold load_fields. rewrite Habsent. frame_load_fields.
    + intros m0 <-. apply validate_and_commit_members.
Qed.

Lemma loadModel_skips_absent_keys_witness :
  let m' := snd (loadModel (single_file "model.json" (Json intercept_only))
                   "model.json" three_features) in
  (contains intercept_only "coef"
   && is_array (subscript intercept_only "coef") = false →
   coefficients_ m' = coefficients_ three_features)
  ∧ (contains intercept_only "intercept" = false →
     intercept_ m' = intercept_ three_features)
  ∧ (contains intercept_only "scaler_mean"
     && is_array (subscript intercept_only "scaler_mean") = false →
     scaler_mean_ m' = scaler_mean_ three_features)
  ∧ (contains intercept_only "scaler_scale"
     && is_array (subscript intercept_only "scaler_scale") = false →
     scaler_scale_ m' = scaler_scale_ three_features).
Proof.
  apply (loadModel_skips_absent_keys
           (single_file "model.json" (Json intercept_only)) "model.json"
           three_features intercept_only).
  reflexivity.
Defined.

(** ** What a successful loadModel has read *)

Lemma array_key_decoded (get : ImpactModel → list double)
    (set : list double → ImpactModel → ImpactModel)
    (push : double → ImpactModel → ImpactModel) (j : json) (key : string) :
  (∀ v m, get (set v m) = v) →
  (∀ ds m, get (foldl (λ m d, push d m) m ds) = get m ++ ds) →
  triple (λ _, True)
    (Method.when (contains j key && is_array (subscript j key))
       (Method.bind (Method.modify (set []))
          (λ _, push_all push (items (subscript j key)))))
    (λ _ m, decoded_as_array j key (get m)) (λ _, True).
Proof.
  intros Hset Hpush m _.
  destruct (contains j key) eqn:Hcontains; simpl.
  - destruct (subscript j key) as [| | | |elems|] eqn:Hsub; simpl;
      try (intros elems' _ Hsub'; congruence).
    unfold Method.bind, Method.modify.
    destruct (push_all push elems (set [] m)) as [[[]|] m'] eqn:Hrun; [|done].
    destruct (push_all_returned _ _ _ _ Hrun) as (ds & -> & ->).
    intros elems' _ Hsub'. rewrite Hsub in Hsub'. injection Hsub' as <-.
    by rewrite Hpush, Hset.
  - intros elems' Habs. congruence.
Qed.

Lemma intercept_key_decoded (j : json) :
  triple (λ _, True)
    (Method.when (contains j "intercept")
       (Method.bind (Method.try_get (get_double (subscript j "intercept")))
          (λ d, Method.modify (set_intercept d))))
    (λ _ m, contains j "intercept" = true →
            subscript j "intercept" = JNumber (intercept_ m))
    (λ _, True).
Proof.
  intros m _. destruct (contains j "intercept"); simpl; [|done].
  unfold Method.bind.
  by destruct (subscript j "intercept") as [| |d| | |].
Qed.

Lemma load_fields_decoded j :
  triple (λ _, True) (load_fields j)
    (λ _ m, decoded_as_array j "coef" (coefficients_ m)
            ∧ (contains j "intercept" = true →
               subscript j "intercept" = JNumber (intercept_ m))
            ∧ decoded_as_array j "scaler_mean" (scaler_mean_ m)
            ∧ decoded_as_array j "scaler_scale" (scaler_scale_ m))
    (λ _, True).
Proof.
  set (Dc := λ m, decoded_as_array j "coef" (coefficients_ m)).
  set (Di := λ m, contains j "intercept" = true →
                  subscript j "intercept" = JNumber (intercept_ m)).
  set (Dm := λ m, decoded_as_array j "scaler_mean" (scaler_mean_ m)).
  set (Ds := λ m, decoded_as_array j "scaler_scale" (scaler_scale_ m)).
  unfold load_fields.
  apply triple_bind with (R := λ _, Dc).
  { apply (array_key_decoded coefficients_ set_coefficients push_coefficient);
      [done|]. intros ds m. by rewrite foldl_push_coefficient. }
  intros _. apply triple_bind with (R := λ _ m, Dc m ∧ Di m).
  { apply triple_weaken with
      (P' := λ m, Dc m ∧ True) (Q' := λ _ m, Dc m ∧ Di m)
      (E' := λ m, Dc m ∧ True); try done.
    apply triple_conj; [|apply intercept_key_decoded].
    change (invariant Dc
      (Method.when (contains j "intercept")
         (Method.bind (Method.try_get (get_double (subscript j "intercept")))
            (λ d, Method.modify (set_intercept d))))).
    frame_load_fields. }
  intros _. apply triple_bind with (R := λ _ m, (Dc m ∧ Di m) ∧ Dm m).
  { apply triple_weaken with
      (P' := λ m, (Dc m ∧ Di m) ∧ True) (Q' := λ _ m, (Dc m ∧ Di m) ∧ Dm m)
      (E' := λ m, (Dc m ∧ Di m) ∧ True); try done.
    apply triple_conj.
    - change (invariant (λ m, Dc m ∧ Di m)
        (Method.when
           (contains j "scaler_mean" && is_array (subscript j "scaler_mean"))
           (Method.bind (Method.modify (set_scaler_mean []))
              (λ _, push_all push_scaler_mean (items (subscript j "scaler_mean")))))).
      frame_load_fields.
    - apply (array_key_decoded scaler_mean_ set_scaler_mean push_scaler_mean);
        [done|]. intros ds m. by rewrite foldl_push_scaler_mean. }
  intros _.
  apply triple_weaken with
    (P' := λ m, ((Dc m ∧ Di m) ∧ Dm m) ∧ True)
    (Q' := λ _ m, ((Dc m ∧ Di m) ∧ Dm m) ∧ Ds m)
    (E' := λ m, ((Dc m ∧ Di m) ∧ Dm m) ∧ True);
    [| by intros m Hm | by intros _ m [[[? ?] ?] ?] | done].
  apply triple_conj.
  - change (invariant (λ m, (Dc m ∧ Di m) ∧ Dm m)
      (Method.when
         (contains j "scaler_scale" && is_array (subscript j "scaler_scale"))
         (Method.bind (Method.modify (set_scaler_scale []))
            (λ _, push_all push_scaler_scale (items (subscript j "scaler_scale")))))).
    frame_load_fields.
  - apply (array_key_decoded scaler_scale_ set_scaler_scale push_scaler_scale);
      [done|]. intros ds m. by rewrite foldl_push_scaler_scale.
Qed.

(** X10: when [loadModel] has returned [true], every array the document
    holds under one of the three array keys consists of numbers only, and
    the matching member is exactly that sequence of numbers, in order; an
    intercept the document holds is a number, and [intercept_] is that
    number. *)
Theorem loadModel_success_decoded (fs : filesystem) (weights_path : string)
    (m m' : ImpactModel) (j : json) :
  fs weights_path = Some (Json j) →
  loadModel fs weights_path m = (true, m') →
  decoded_as_array j "coef" (coefficients_ m')
  ∧ (contains j "intercept" = true →
     subscript j "intercept" = JNumber (intercept_ m'))
  ∧ decoded_as_array j "scaler_mean" (scaler_mean_ m')
  ∧ decoded_as_array j "scaler_scale" (scaler_scale_ m').
Proof.
  intros Hfile Hload.
  unfold loadModel, Method.try_catch in Hload. rewrite Hfile in Hload.
  unfold load_from in Hload. cbn [Method.try_get] in Hload.
  unfold Method.bind at 1 in Hload. cbn [Method.ret] in Hload.
  unfold Method.bind at 1 in Hload.
  destruct (load_fields j m) as [[[]|] m1] eqn:Hfields; [|done].
  pose proof (triple_returned _ _ _ _ _ _ _ (load_fields_decoded j) I Hfields)
    as (Hc & Hi & Hm & Hs).
  destruct (validate_and_commit_members m1) as (Ec & Ei & Em & Es).
  destruct (validate_and_commit m1) as [[b|] m2]; [|done].
  injection Hload as -> ->. cbn [snd] in *.
  by rewrite Ec, Ei, Em, Es.
Qed.

Lemma loadModel_success_decoded_witness :
  let m' := mkImpactModel true 1 [2%float] 1%float [0%float] [1%float] in
  decoded_as_array known_artifact "coef" (coefficients_ m')
  ∧ (contains known_artifact "intercept" = true →
     subscript known_artifact "intercept" = JNumber (intercept_ m'))
  ∧ decoded_as_array known_artifact "scaler_mean" (scaler_mean_ m')
  ∧ decoded_as_array known_artifact "scaler_scale" (scaler_scale_ m').
Proof.
  apply (loadModel_success_decoded
           (single_file "model.json" (Json known_artifact)) "model.json"
           ImpactModel_new
           (mkImpactModel true 1 [2%float] 1%float [0%float] [1%float])
           known_artifact); reflexivity.
Defined.

(** ** predict right after a successful loadModel *)

Lemma of_size_t_le s : 0 ≤ s → Int.of_size_t s ≤ s.
Proof.
  intros Hs. unfold Int.of_size_t, Int.int_modulus, Int.INT_MAX.
  pose proof (Z.mod_le s (2 ^ 32) Hs ltac:(lia)) as Hle.
  destruct (Z.leb_spec (s mod 2 ^ 32) (2 ^ 31 - 1)); lia.
Qed.

Lemma to_size_t_negative n :
  Int.INT_MIN ≤ n < 0 → Int.to_size_t n = n + Int.size_modulus.
Proof.
  intros Hn. unfold Int.to_size_t, Int.size_modulus, Int.INT_MIN in *.
  symmetry. apply (Z.mod_unique_pos n (2 ^ 64) (-1)); lia.
Qed.

(** On an object that has passed the validation, no feature vector of
    fewer than 2^63 entries makes [predict] index out of range. *)
Lemma predict_validated m (features : list double) :
  loaded_ m = true →
  n_features_ m = Int.of_size_t (vsize (coefficients_ m)) →
  n_features_ m ≠ 0 →
  vsize (scaler_mean_ m) = Int.to_size_t (n_features_ m) →
  vsize (scaler_scale_ m) = Int.to_size_t (n_features_ m) →
  vsize features < 2 ^ 63 →
  predict m features
  = Some (if vsize features =? n_features_ m
          then Formula.result (length features) (coefficients_ m)
                 (intercept_ m) (scaler_mean_ m) (scaler_scale_ m) features
          else 0%float).
Proof.
  intros Hloaded Hn Hne Hmean Hscale Hbound.
  pose proof (of_size_t_in_range (vsize (coefficients_ m))) as Hrange.
  rewrite <- Hn in Hrange. unfold Int.in_range in Hrange.
  pose proof (vsize_nonneg features) as Hpos.
  pose proof (vsize_nonneg (coefficients_ m)) as Hposc.
  pose proof (of_size_t_le _ Hposc) as Hle. rewrite <- Hn in Hle.
  destruct (Z_lt_le_dec (n_features_ m) 0) as [Hneg | Hnonneg].
  - (* a negative count converts to a size no vector here has *)
    pose proof (to_size_t_negative (n_features_ m) ltac:(lia)) as Hsize.
    unfold Int.INT_MIN, Int.size_modulus in *.
    destruct (Z.eqb_spec (vsize features) (n_features_ m)); [lia|].
    unfold predict. rewrite Hloaded. cbn [negb].
    destruct (Z.eqb_spec (vsize features) (Int.to_size_t (n_features_ m)));
      [lia | done].
  - assert (Hsize : Int.to_size_t (n_features_ m) = n_features_ m).
    { apply to_size_t_small. unfold Int.INT_MAX, Int.size_modulus in *. lia. }
    destruct (Z.eqb_spec (vsize features) (n_features_ m)) as [Heq | Hneq].
    + apply predict_enough; rewrite ?Hsize; try done; lia.
    + unfold predict. rewrite Hloaded, Hsize. cbn [negb].
      by destruct (Z.eqb_spec (vsize features) (n_features_ m)).
Qed.

(** X11: right after a [loadModel] that returned [true], [predict] never
    indexes out of range, whatever the document and the previous state were
    (also when the coefficient count has been truncated to [int]): for every
    feature vector of fewer than 2^63 entries it returns the affine
    combination when the vector has [n_features_] entries and [0.0]
    otherwise. *)
Theorem predict_after_load (fs : filesystem) (weights_path : string)
    (m m' : ImpactModel) (features : list double) :
  loadModel fs weights_path m = (true, m') →
  vsize features < 2 ^ 63 →
  predict m' features
  = Some (if vsize features =? n_features_ m'
          then Formula.result (length features) (coefficients_ m')
                 (intercept_ m') (scaler_mean_ m') (scaler_scale_ m') features
          else 0%float).
Proof.
  intros Hload Hbound.
  destruct (loadModel_success _ _ _ _ Hload)
    as (Hloaded & Hn & Hne & Hmean & Hscale).
  by apply predict_validated.
Qed.

Lemma predict_after_load_witness :
  predict (mkImpactModel true 1 [2%float] 1%float [0%float] [1%float])
    [3%float; 4%float]
  = Some (if vsize [3%float; 4%float] =? 1
          then Formula.result 2 [2%float] 1%float [0%float] [1%float]
                 [3%float; 4%float]
          else 0%float).
Proof.
  apply (predict_after_load
           (single_file "model.json" (Json known_artifact)) "model.json"
           ImpactModel_new
           (mkImpactModel true 1 [2%float] 1%float [0%float] [1%float])
           [3%float; 4%float]); reflexivity.
Defined.

(** ** main *)

(** X12: the driver never runs into undefined behaviour: in every file
    system it ends with an exit status, 1 without printing a prediction
    exactly when [loadModel] fails, and 0 after printing one otherwise. *)
Theorem main_exits (fs : filesystem) :
  ∃ outcome,
    main fs = Some outcome
    ∧ (fst (loadModel fs model_path ImpactModel_new) = false →
       outcome = Exited 1 None)
    ∧ (fst (loadModel fs model_path ImpactModel_new) = true →
       ∃ impact, outcome = Exited 0 (Some impact)).
Proof.
  unfold main.
  destruct (loadModel fs model_path ImpactModel_new) as [[|] model] eqn:Hload;
    cbn [negb fst].
  - destruct (loadModel_success _ _ _ _ Hload)
      as (Hloaded & Hn & Hne & Hmean & Hscale).
    rewrite (predict_validated model example_features)
      by (try done; vm_compute; reflexivity).
    cbn [mbind option_bind]. eexists. split_and!; [done | done |]. eauto.
  - eexists. split_and!; [done | done | done].
Qed.



(** ** Runs in which no loadModel fails *)





Lemma loadModel_rejects_dimensions_witness :
  let fs := single_file "model.json" (Json mismatched_artifact) in
  fst (loadModel fs "model.json" three_features) = false
  ∧ loaded_ (snd (loadModel fs "model.json" three_features))
    = loaded_ three_features.
Proof.
  apply (loadModel_rejects_dimensions
           (single_file "model.json" (Json mismatched_artifact)) "model.json"
           three_features mismatched_artifact
           [JNumber 1%float; JNumber 2%float]);
    [reflexivity | reflexivity | reflexivity
    | vm_compute; discriminate |].
  right. left. exists [JNumber 0%float].
  split_and!; [reflexivity | reflexivity | vm_compute; discriminate].
Defined.

Lemma loadModel_success_consistent_witness :
  let m' := mkImpactModel true 1 [2%float] 1%float [0%float] [1%float] in
  loaded_ m' = true
  ∧ 1 ≤ n_features_ m'
  ∧ vsize (coefficients_ m') = n_features_ m'
  ∧ vsize (scaler_mean_ m') = n_features_ m'
  ∧ vsize (scaler_scale_ m') = n_features_ m'.
Proof.
  apply (loadModel_success_consistent
           (single_file "model.json" (Json known_artifact)) "model.json"
           ImpactModel_new);
    [reflexivity | vm_compute; discriminate].
Defined.
